(** * To-do list API: the persisted-entity handlers of [backend/main.py]

    A shallow embedding of the FastAPI handlers over the [todoitem] table,
    of the request models they take, and of the translation pass-through.

    The relational store behind [Session] is the SQLite table that
    [SQLModel.metadata.create_all] derives from [class TodoItem]: a finite
    map from the integer primary key to the remaining columns.  A request
    handler takes the store it finds and returns the store it leaves,
    together with the HTTP response; each request has a session of its
    own, so a commit that raises leaves the store as the request found it.

    What the model leaves out: a Python [str] is a [string], one character
    each; the ids the store assigns are integers without the 64-bit bound
    of SQLite (an id a request names is held against it); a commit
    raises only when a NOT NULL column would receive [None], faults of the
    engine (I/O, locking) are not modelled; a response body is the value
    returned by the handler, of which the JSON sent is a function. *)

From Stdlib Require Import ZArith Lia.
From stdpp Require Import gmap strings list fin_maps sorting.

Local Open Scope string_scope.
Local Open Scope Z_scope.

(** ** Data model *)

(** [datetime.date]. *)
Record date := mk_date { year : Z; month : Z; day : Z }.

(** Exceptions the handlers can meet. *)
Inductive exn :=
| ValidationError (field : string)   (* pydantic, raised by [model_validate] *)
| IntegrityError (column : string)   (* NOT NULL constraint failed: todoitem.<column> *)
| InvalidRequestError                (* the session has no row for the instance *)
| OverflowError                      (* Python int too large to convert to SQLite INTEGER *)
| ServiceError (msg : string).       (* raised by the generative-model client *)

(** [class TodoItem(SQLModel, table=True)]: an instance as Python holds it.
    [title: str] and [completed: bool] are declared without [Optional], but a
    table model is not validated on attribute assignment, so after
    [sqlmodel_update] either attribute may hold [None]; the NOT NULL columns
    refuse such an instance when the session is flushed. *)
Module TodoItem.
Record t := mk {
  id : option Z;
  title : option string;
  description : option string;
  completed : option bool;
  priority : option string;
  due_date : option date }.
End TodoItem.

(** A row of table [todoitem] without its primary key.  Column nullability
    follows the annotations of [class TodoItem]: [title] and [completed] are
    NOT NULL, the three [Optional] columns are nullable.  [priority] is
    VARCHAR(50), a length SQLite does not enforce. *)
Module Row.
Record t := mk {
  title : string;
  description : option string;
  completed : bool;
  priority : option string;
  due_date : option date }.
End Row.

(** [class TodoItemCreate(BaseModel)]. *)
Module TodoItemCreate.
Record t := mk {
  title : string;
  description : option string;
  priority : option string;
  due_date : option date }.
End TodoItemCreate.

(** [class TodoItemUpdate(BaseModel)]: every field defaults to [None];
    [model_fields_set] holds the names of the fields the request body
    supplied, as pydantic records them. *)
Module TodoItemUpdate.
Record t := mk {
  title : option string;
  description : option string;
  completed : option bool;
  priority : option string;
  due_date : option date;
  model_fields_set : gset string }.
End TodoItemUpdate.

(** The dict [model_dump] returns for a [TodoItemUpdate]: per field name,
    [None] when the key is not in the dict and [Some v] when it is bound to
    [v] (where [v] itself may be Python's [None]). *)
Module UpdateData.
Record t := mk {
  title : option (option string);
  description : option (option string);
  completed : option (option bool);
  priority : option (option string);
  due_date : option (option date) }.
End UpdateData.

(** [class TranslationRequest(BaseModel)]. *)
Module TranslationRequest.
Record t := mk { text : string; target_language : string }.
End TranslationRequest.

(** ** HTTP responses *)

Inductive body :=
| Entity (todo : TodoItem.t)                 (* response_model=TodoItem *)
| Translation (translated_text : string)     (* response_model=TranslationResponse *)
| Detail (msg : string)                      (* HTTPException(detail="...") *)
| DetailExn (msg : string) (e : exn)         (* HTTPException(detail=f"...: {e}") *)
| RequestValidationError (field : string)    (* FastAPI's answer to a body the schema rejects *)
| InternalServerError                        (* an exception no handler caught *)
| NoContent.

Record response := Response { status_code : Z; content : body }.

Definition HTTPException (status : Z) (detail : string) : response :=
  Response status (Detail detail).

(** ** The store *)

Abbreviation store := (gmap Z Row.t).

(** What the session builds from the row with primary key [i]. *)
Definition load (i : Z) (r : Row.t) : TodoItem.t :=
  TodoItem.mk (Some i) (Some (Row.title r)) (Row.description r)
    (Some (Row.completed r)) (Row.priority r) (Row.due_date r).

(** The keys of a SQLite table are signed 64-bit integers. *)
Definition int64 (z : Z) : bool := (- 2 ^ 63 <=? z) && (z <=? 2 ^ 63 - 1).

(** [session.get(TodoItem, todo_id)]: the instance of the row with that
    key, [None] when the table has no such row.  The key is bound as a
    parameter of the SELECT, and the driver raises [OverflowError] on an
    integer outside the 64-bit range instead of finding nothing.  (A table
    holds no key outside that range, so a key that is found is within
    it.) *)
Definition session_get (s : store) (todo_id : Z) : exn + option TodoItem.t :=
  match s !! todo_id with
  | Some r => inr (Some (load todo_id r))
  | None => if int64 todo_id then inr None else inl OverflowError
  end.

(** The column values an instance is flushed with; the NOT NULL columns
    raise [IntegrityError] on [None]. *)
Definition flush_columns (todo : TodoItem.t) : exn + Row.t :=
  match TodoItem.title todo, TodoItem.completed todo with
  | None, _ => inl (IntegrityError "title")
  | Some _, None => inl (IntegrityError "completed")
  | Some t, Some c =>
      inr (Row.mk t (TodoItem.description todo) c
             (TodoItem.priority todo) (TodoItem.due_date todo))
  end.

(** The largest primary key in use, [None] on an empty table. *)
Definition max_rowid (s : store) : option Z :=
  map_fold (λ k _ acc, Some (match acc with None => k | Some m => Z.max k m end))
    None s.

(** The key SQLite gives to a row inserted with [id = NULL] into a table
    whose [INTEGER PRIMARY KEY] is declared without AUTOINCREMENT (the DDL of
    [id: Optional[int] = Field(default=None, primary_key=True)]): one more
    than the largest key in use, and 1 on an empty table.  (At the largest
    64-bit key SQLite tries unused keys at random; not modelled.) *)
Definition next_rowid (s : store) : Z :=
  match max_rowid s with
  | None => 1
  | Some m => m + 1
  end.

(** [session.add(todo); session.commit()]: an instance without id is
    INSERTed under the next key, an instance loaded from the table is
    UPDATEd in place.  Returns the new table and the key written. *)
Definition session_add_commit (s : store) (todo : TodoItem.t) : exn + store * Z :=
  match flush_columns todo with
  | inl e => inl e
  | inr r =>
      match TodoItem.id todo with
      | None => let i := next_rowid s in inr (<[i := r]> s, i)
      | Some i => inr (<[i := r]> s, i)
      end
  end.

(** [session.refresh(todo)] for the instance written under key [i]. *)
Definition session_refresh (s : store) (i : Z) : exn + TodoItem.t :=
  match session_get s i with
  | inl e => inl e
  | inr None => inl InvalidRequestError
  | inr (Some todo) => inr todo
  end.

(** [session.delete(todo); session.commit()]: the row of the instance is
    DELETEd; an instance that was never stored cannot be deleted. *)
Definition session_delete_commit (s : store) (todo : TodoItem.t) : exn + store :=
  match TodoItem.id todo with
  | None => inl InvalidRequestError
  | Some i => inr (delete i s)
  end.

(** ** Request models *)

(** [Field(default=None, max_length=50)] on [TodoItem.priority]. *)
Definition priority_max_length : nat := 50.

Definition priority_ok (p : option string) : bool :=
  match p with
  | None => true
  | Some v => Nat.leb (String.length v) priority_max_length
  end.

(** [TodoItem.model_validate(todo_create)]: reads the attributes of
    [todo_create] (from_attributes), takes the defaults for [id] and
    [completed], which [TodoItemCreate] does not have, and validates the
    fields against the constraints of [TodoItem]. *)
Definition model_validate (todo_create : TodoItemCreate.t) : exn + TodoItem.t :=
  if priority_ok (TodoItemCreate.priority todo_create) then
    inr (TodoItem.mk None
           (Some (TodoItemCreate.title todo_create))
           (TodoItemCreate.description todo_create)
           (Some false)
           (TodoItemCreate.priority todo_create)
           (TodoItemCreate.due_date todo_create))
  else inl (ValidationError "priority").

(** One entry of [model_dump]: with [exclude_unset] a field that is not in
    [model_fields_set] gets no key. *)
Definition dump_field {A} (exclude_unset : bool) (fields_set : gset string)
    (name : string) (v : option A) : option (option A) :=
  if exclude_unset && negb (bool_decide (name ∈ fields_set)) then None else Some v.

(** [todo_update.model_dump(exclude_unset=...)]. *)
Definition model_dump (exclude_unset : bool) (u : TodoItemUpdate.t) : UpdateData.t :=
  let fs := TodoItemUpdate.model_fields_set u in
  UpdateData.mk
    (dump_field exclude_unset fs "title" (TodoItemUpdate.title u))
    (dump_field exclude_unset fs "description" (TodoItemUpdate.description u))
    (dump_field exclude_unset fs "completed" (TodoItemUpdate.completed u))
    (dump_field exclude_unset fs "priority" (TodoItemUpdate.priority u))
    (dump_field exclude_unset fs "due_date" (TodoItemUpdate.due_date u)).

(** [setattr] for one key of the dict, when the dict has it. *)
Definition set_from {A} (entry : option (option A)) (old : option A) : option A :=
  match entry with
  | None => old
  | Some v => v
  end.

(** [todo.sqlmodel_update(update_data)]: assigns every key of the dict that
    names a field; nothing is validated.  No key can name [id], which
    [TodoItemUpdate] does not have. *)
Definition sqlmodel_update (todo : TodoItem.t) (d : UpdateData.t) : TodoItem.t :=
  TodoItem.mk
    (TodoItem.id todo)
    (set_from (UpdateData.title d) (TodoItem.title todo))
    (set_from (UpdateData.description d) (TodoItem.description todo))
    (set_from (UpdateData.completed d) (TodoItem.completed todo))
    (set_from (UpdateData.priority d) (TodoItem.priority todo))
    (set_from (UpdateData.due_date d) (TodoItem.due_date todo)).

(** ** Handlers *)

(** [POST /todos], status_code=201. *)
Definition create_todo (s : store) (todo_create : TodoItemCreate.t) : store * response :=
  match model_validate todo_create with
  | inl _ => (s, Response 500 InternalServerError)
  | inr db_todo =>
      match session_add_commit s db_todo with
      | inl e => (s, Response 500 (DetailExn "Failed to create todo: " e))
      | inr (s', i) =>
          match session_refresh s' i with
          | inl e => (s', Response 500 (DetailExn "Failed to create todo: " e))
          | inr todo => (s', Response 201 (Entity todo))
          end
      end
  end.

(** [GET /todos/{todo_id}].  [session.get] is outside every [try]: what it
    raises is caught by no handler. *)
Definition get_todo (s : store) (todo_id : Z) : response :=
  match session_get s todo_id with
  | inl _ => Response 500 InternalServerError
  | inr None => HTTPException 404 "To-Do item not found"
  | inr (Some todo) => Response 200 (Entity todo)
  end.

(** [PUT /todos/{todo_id}]. *)
Definition update_todo (s : store) (todo_id : Z) (todo_update : TodoItemUpdate.t)
    : store * response :=
  match session_get s todo_id with
  | inl _ => (s, Response 500 InternalServerError)
  | inr None => (s, HTTPException 404 "To-Do item not found")
  | inr (Some todo) =>
      let update_data := model_dump true todo_update in
      let todo := sqlmodel_update todo update_data in
      match session_add_commit s todo with
      | inl e => (s, Response 500 (DetailExn "Failed to update todo: " e))
      | inr (s', i) =>
          match session_refresh s' i with
          | inl e => (s', Response 500 (DetailExn "Failed to update todo: " e))
          | inr todo => (s', Response 200 (Entity todo))
          end
      end
  end.

(** [DELETE /todos/{todo_id}], status_code=204. *)
Definition delete_todo (s : store) (todo_id : Z) : store * response :=
  match session_get s todo_id with
  | inl _ => (s, Response 500 InternalServerError)
  | inr None => (s, HTTPException 404 "To-Do item not found")
  | inr (Some todo) =>
      match session_delete_commit s todo with
      | inl e => (s, Response 500 (DetailExn "Failed to delete todo: " e))
      | inr s' => (s', Response 204 NoContent)
      end
  end.

(** ** The request body of [POST /todos] before validation *)

(** One field of the JSON object FastAPI hands to pydantic: the key is
    missing, is bound to [null], is bound to a value the declared type
    accepts (given here as the parsed value), or is bound to a value it
    rejects. *)
Inductive json_field (A : Type) :=
| Missing
| Null
| Valid (a : A)
| Invalid.
Arguments Missing {A}.
Arguments Null {A}.
Arguments Valid {A} a.
Arguments Invalid {A}.

Module CreateBody.
Record t := mk {
  title : json_field string;
  description : json_field string;
  priority : json_field string;
  due_date : json_field date }.
End CreateBody.

(** A field annotated [T] without default: the key must be there and hold
    a [T]. *)
Definition required_field {A} (name : string) (f : json_field A) : string + A :=
  match f with
  | Valid a => inr a
  | Missing | Null | Invalid => inl name
  end.

(** A field annotated [Optional[T] = None]. *)
Definition optional_field {A} (name : string) (f : json_field A) : string + option A :=
  match f with
  | Missing | Null => inr None
  | Valid a => inr (Some a)
  | Invalid => inl name
  end.

(** Validation of the body against [TodoItemCreate]; [inl name] names the
    first field in error. *)
Definition validate_create_body (b : CreateBody.t) : string + TodoItemCreate.t :=
  match required_field "title" (CreateBody.title b) with
  | inl f => inl f
  | inr t =>
  match optional_field "description" (CreateBody.description b) with
  | inl f => inl f
  | inr d =>
  match optional_field "priority" (CreateBody.priority b) with
  | inl f => inl f
  | inr p =>
  match optional_field "due_date" (CreateBody.due_date b) with
  | inl f => inl f
  | inr dd => inr (TodoItemCreate.mk t d p dd)
  end end end end.

(** The route [POST /todos]: FastAPI validates the body and calls the
    handler only with a [TodoItemCreate]. *)
Definition post_todos (s : store) (b : CreateBody.t) : store * response :=
  match validate_create_body b with
  | inl f => (s, Response 422 (RequestValidationError f))
  | inr todo_create => create_todo s todo_create
  end.

(** ** Requests in sequence *)

Inductive request :=
| POST (todo_create : TodoItemCreate.t)
| GET (todo_id : Z)
| PUT (todo_id : Z) (todo_update : TodoItemUpdate.t)
| DELETE (todo_id : Z).

Definition handle (s : store) (q : request) : store * response :=
  match q with
  | POST c => create_todo s c
  | GET i => (s, get_todo s i)
  | PUT i u => update_todo s i u
  | DELETE i => delete_todo s i
  end.

(** The responses to a list of requests served one after the other, and
    the store they leave. *)
Fixpoint serve (s : store) (qs : list request) : store * list response :=
  match qs with
  | [] => (s, [])
  | q :: qs' =>
      let '(s1, r) := handle s q in
      let '(s2, rs) := serve s1 qs' in
      (s2, r :: rs)
  end.

(** The id a response to a creation carries. *)
Definition created_id (r : response) : option Z :=
  match r with
  | Response 201 (Entity todo) => TodoItem.id todo
  | _ => None
  end.

(** ** Translation pass-through *)

(** [genai.GenerativeModel]: the handle through which the external service
    is called.  [generate_content] stands for the remote call followed by
    [response.text]; either can raise. *)
Record GenerativeModel := {
  model_name : string;
  generate_content : string → exn + string }.

(** The module-level [try] block that sets [gemini_model]:
    [os.getenv("GOOGLE_API_KEY")] is [None] or a string, and an empty
    string is as good as none. *)
Definition configure_gemini (GOOGLE_API_KEY : option string)
    (service : string → exn + string) : option GenerativeModel :=
  match GOOGLE_API_KEY with
  | None => None
  | Some key =>
      if bool_decide (key = "") then None
      else Some {| model_name := "gemini-2.5-flash"; generate_content := service |}
  end.

(** [POST /translate].  Beside the response, the prompts submitted to the
    external service while the request was served. *)
Definition translate_text (gemini_model : option GenerativeModel)
    (request : TranslationRequest.t) : list string * response :=
  match gemini_model with
  | None =>
      ([], HTTPException 503
             "Translation service not available. API key might be missing or invalid.")
  | Some model =>
      let prompt := "Translate the following text into "
                    +:+ TranslationRequest.target_language request
                    +:+ ": " +:+ TranslationRequest.text request in
      match generate_content model prompt with
      | inr translated_content => ([prompt], Response 200 (Translation translated_content))
      | inl e => ([prompt], Response 500 (DetailExn "Failed to translate text: " e))
      end
  end.

(** ** Presentation layer: the creation form of [frontend/app.py] *)

(** Python truthiness of an optional string. *)
Definition truthy (o : option string) : bool :=
  match o with
  | None => false
  | Some v => negb (bool_decide (v = ""))
  end.

(** The JSON [add_todo_to_backend] posts. *)
Definition add_todo_data (title : string) (description priority : option string)
    (due_date : option date) : CreateBody.t :=
  CreateBody.mk (Valid title)
    (if truthy description then from_option Valid Missing description else Missing)
    (if truthy priority then from_option Valid Missing priority else Missing)
    (from_option Valid Missing due_date).

(** The submit branch of the form: [None] is the warning shown for a blank
    title, [Some] the body posted. *)
Definition add_todo_form (new_title new_description new_priority : string)
    (new_due_date : option date) : option CreateBody.t :=
  let submitted_priority :=
    if bool_decide (new_priority = "None") then None else Some new_priority in
  if truthy (Some new_title) then
    Some (add_todo_data new_title (Some new_description) submitted_priority new_due_date)
  else None.

(** ** Request bodies and predicates the properties are stated with *)

(** The body [{"title": t}]. *)
Definition title_only (t : string) : CreateBody.t :=
  CreateBody.mk (Valid t) Missing Missing Missing.

(** The caller mentioned the field: its key was in the request body. *)
Definition mentions (u : TodoItemUpdate.t) (name : string) : Prop :=
  name ∈ TodoItemUpdate.model_fields_set u.

(** The body [{}]. *)
Definition empty_update : TodoItemUpdate.t :=
  TodoItemUpdate.mk None None None None None ∅.

(** The body [{"completed": true}], the one [mark_todo_completed] sends. *)
Definition completed_true : TodoItemUpdate.t :=
  TodoItemUpdate.mk None None (Some true) None None {["completed"]}.

(** The body [{"description": null}]. *)
Definition description_null : TodoItemUpdate.t :=
  TodoItemUpdate.mk None None None None None {["description"]}.

(** The title property as the specification words it: every entity a
    creation returns has a non-empty title. *)
Definition created_title_non_empty : Prop :=
  ∀ (s s' : store) (b : CreateBody.t) (e : TodoItem.t),
    post_todos s b = (s', Response 201 (Entity e)) →
    ∃ t, TodoItem.title e = Some t ∧ t ≠ "".

(** Every stored priority is within the declared [max_length]. *)
Definition priority_bounded (s : store) : Prop :=
  ∀ i r, s !! i = Some r → priority_ok (Row.priority r) = true.

(** A priority of 51 characters. *)
Definition long_priority : string :=
  "012345678901234567890123456789012345678901234567890".

(** The ids handed out by the creations among a list of responses, in
    order. *)
Definition created_ids (rs : list response) : list Z := omap created_id rs.

(** The id property as the specification words it: in a running store
    instance, from the empty table on, no id is handed out twice, whatever
    requests are served. *)
Definition ids_assigned_once : Prop :=
  ∀ qs : list request, NoDup (created_ids (snd (serve ∅ qs))).

(** The answer of the three handlers to an id the table does not hold:
    not found, or the uncaught error of the driver when the id is no 64-bit
    integer. *)
Definition absent_response (i : Z) : response :=
  if int64 i then HTTPException 404 "To-Do item not found"
  else Response 500 InternalServerError.



(** None of the requests is a [DELETE]. *)
Definition no_delete (qs : list request) : Prop :=
  Forall (λ q, ∀ i, q ≠ DELETE i) qs.

(** ** Listing *)

Definition rowid_le (x y : Z * Row.t) : Prop := x.1 ≤ y.1.

#[local] Instance rowid_le_dec : RelDecision rowid_le.
Proof. intros x y. unfold rowid_le. apply _. Defined.

(** [GET /todos]: [session.exec(select(TodoItem)).all()], a scan of the
    table without ORDER BY, which SQLite walks by primary key. *)
Definition get_all_todos (s : store) : list TodoItem.t :=
  (λ kr, load kr.1 kr.2) <$> merge_sort rowid_le (map_to_list s).

(** ** Presentation layer: the helpers of [frontend/app.py] *)

(** [response.raise_for_status()] raises for the statuses 400 to 599. *)
Definition raises_for_status (r : response) : bool :=
  bool_decide (400 ≤ status_code r) && bool_decide (status_code r < 600).

(** [get_todos], the connection being up. *)
Definition get_todos (s : store) : list TodoItem.t := get_all_todos s.

(** [add_todo_to_backend]: posts the body and returns whether the answer
    was a success. *)
Definition add_todo_to_backend (s : store) (title : string)
    (description priority : option string) (due_date : option date) : store * bool :=
  let '(s', response) := post_todos s (add_todo_data title description priority due_date) in
  (s', negb (raises_for_status response)).

(** [mark_todo_completed]: [PUT] with [{"completed": True}]. *)
Definition mark_todo_completed (s : store) (todo_id : Z) : store :=
  fst (update_todo s todo_id completed_true).

(** [delete_todo_item]. *)
Definition delete_todo_item (s : store) (todo_id : Z) : store :=
  fst (delete_todo s todo_id).

(** [translate_text_on_backend]: the [translated_text] of the answer, or
    [None] when the answer is an error. *)
Definition translate_text_on_backend (gemini_model : option GenerativeModel)
    (text target_language : string) : option string :=
  let response := snd (translate_text gemini_model
                         (TranslationRequest.mk text target_language)) in
  if raises_for_status response then None
  else match content response with
       | Translation translated_text => Some translated_text
       | _ => None
       end.

(** The options of the priority select box of the creation form. *)
Definition priority_options : list string := ["None"; "Low"; "Medium"; "High"].

(** ** Presentation layer: the list view *)

(** Truthiness of [todo.get("completed")]. *)
Definition is_completed (todo : TodoItem.t) : bool :=
  match TodoItem.completed todo with
  | Some c => c
  | None => false
  end.

Definition incomplete_todos (todos : list TodoItem.t) : list TodoItem.t :=
  List.filter (λ todo, negb (is_completed todo)) todos.

Definition completed_todos (todos : list TodoItem.t) : list TodoItem.t :=
  List.filter is_completed todos.

(** [st.session_state.translations]: todo id, then language, to the
    translated text. *)
Abbreviation translations := (gmap Z (gmap string string)).

(** The translation shown under an entity, if one is cached for the
    selected language. *)
Definition shown_translation (tr : translations) (todo_id : Z)
    (target_language : string) : option string :=
  match tr !! todo_id with
  | None => None
  | Some by_language => by_language !! target_language
  end.

(** The two assignments that store a fetched translation. *)
Definition cache_translation (tr : translations) (todo_id : Z)
    (target_language translated_text : string) : translations :=
  let tr1 :=
    match tr !! todo_id with
    | None => <[todo_id := ∅]> tr
    | Some _ => tr
    end in
  <[todo_id := <[target_language := translated_text]> (default ∅ (tr1 !! todo_id))]> tr1.

(** The button of the entity with this id, if the group shows one. *)
Definition has_id (todo_id : Z) (todo : TodoItem.t) : bool :=
  bool_decide (TodoItem.id todo = Some todo_id).

Section Presentation.

(** How a due date reads in the JSON of an entity ([date.isoformat]). *)
Variable isoformat : date → string.

(** An annotation of the text to translate, added for a truthy field. *)
Definition annotation (label : string) (field : option string) : string :=
  match field with
  | Some v => if truthy field then " (" +:+ label +:+ ": " +:+ v +:+ ")" else ""
  | None => ""
  end.

(** The string the translate button composes: the title, then the
    description, the priority and the due date, each when it is truthy.  On
    a dict without title the script composes nothing ([get_todos] returns
    no such dict). *)
Definition text_to_translate (todo : TodoItem.t) : option string :=
  match TodoItem.title todo with
  | None => None
  | Some title =>
      Some (title
            +:+ annotation "Description" (TodoItem.description todo)
            +:+ annotation "Priority" (TodoItem.priority todo)
            +:+ annotation "Due Date" (isoformat <$> TodoItem.due_date todo))
  end.

(** The body of the translate button: a translation that comes back
    non-empty is cached under the entity and the language. *)
Definition on_translate (gemini_model : option GenerativeModel) (tr : translations)
    (todo_id : Z) (todo : TodoItem.t) (target_language : string) : translations :=
  match text_to_translate todo with
  | None => tr
  | Some text =>
      let translated_text := translate_text_on_backend gemini_model text target_language in
      if truthy translated_text
      then cache_translation tr todo_id target_language (default "" translated_text)
      else tr
  end.

(** What the user does on the page. *)
Inductive ui_event :=
| SubmitAdd (new_title new_description new_priority : string) (new_due_date : option date)
| PressCompleted (todo_id : Z)
| PressTranslate (todo_id : Z) (target_language : string)
| PressDelete (todo_id : Z).

(** One run of the script on an event, on the backend store and the
    session's translations.  The list is fetched first; the pending group
    has the three buttons, the completed group the delete button only, and
    a button that is not on the page cannot be pressed. *)
Definition ui_step (gemini_model : option GenerativeModel)
    (st : store * translations) (ev : ui_event) : store * translations :=
  let '(s, tr) := st in
  let todos := get_todos s in
  match ev with
  | SubmitAdd new_title new_description new_priority new_due_date =>
      match add_todo_form new_title new_description new_priority new_due_date with
      | Some b => (fst (post_todos s b), tr)
      | None => (s, tr)
      end
  | PressCompleted todo_id =>
      match List.find (has_id todo_id) (incomplete_todos todos) with
      | Some _ => (mark_todo_completed s todo_id, tr)
      | None => (s, tr)
      end
  | PressTranslate todo_id target_language =>
      match List.find (has_id todo_id) (incomplete_todos todos) with
      | Some todo => (s, on_translate gemini_model tr todo_id todo target_language)
      | None => (s, tr)
      end
  | PressDelete todo_id =>
      match List.find (has_id todo_id) todos with
      | Some _ => (delete_todo_item s todo_id, delete todo_id tr)
      | None => (s, tr)
      end
  end.

End Presentation.

(** The payload sets [title] or [completed] to null. *)
Definition nulls_required (u : TodoItemUpdate.t) : Prop :=
  (mentions u "title" ∧ TodoItemUpdate.title u = None)
  ∨ (mentions u "completed" ∧ TodoItemUpdate.completed u = None).

(** The request does not write a priority beyond the declared length: it
    is no [PUT] that supplies one. *)
Definition within_priority_bound (q : request) : Prop :=
  ∀ i u, q = PUT i u → mentions u "priority" →
         priority_ok (TodoItemUpdate.priority u) = true.

(** The events of a session, one run of the script after the other. *)
Definition ui_run (isoformat : date → string) (gemini_model : option GenerativeModel)
    (st : store * translations) (evs : list ui_event) : store * translations :=
  fold_left (ui_step isoformat gemini_model) evs st.

(** What the form's fields become in the posted body: an empty string is
    left out. *)
Definition non_empty (o : option string) : option string :=
  if truthy o then o else None.

(** No translation is kept for an id the store does not hold. *)
Definition translations_within_store (st : store * translations) : Prop :=
  ∀ i, is_Some (st.2 !! i) → is_Some (st.1 !! i).

(** * Properties *)

(** ** The store's key assignment *)

Lemma max_rowid_bounds (s : store) (k : Z) (r : Row.t) :
  s !! k = Some r → ∃ m, max_rowid s = Some m ∧ k ≤ m.
Proof.
  unfold max_rowid. revert k r.
  apply (map_fold_weak_ind (λ acc (m : store),
           ∀ k r, m !! k = Some r → ∃ x, acc = Some x ∧ k ≤ x)).
  - intros k r Hk. by rewrite lookup_empty in Hk.
  - intros i x m acc Hfresh IH k r Hk.
    destruct (decide (i = k)) as [->|Hne].
    + destruct acc as [a|]; eexists; split; try reflexivity; lia.
    + rewrite lookup_insert_ne in Hk by done.
      destruct (IH k r Hk) as (a & -> & Hle).
      eexists; split; [reflexivity | lia].
Qed.

Lemma next_rowid_above (s : store) (k : Z) :
  is_Some (s !! k) → k < next_rowid s.
Proof.
  intros [r Hk]. unfold next_rowid.
  destruct (max_rowid_bounds s k r Hk) as (m & -> & Hle). lia.
Qed.

Lemma next_rowid_fresh (s : store) : s !! next_rowid s = None.
Proof.
  destruct (s !! next_rowid s) as [r|] eqn:E; [|done].
  assert (next_rowid s < next_rowid s) by (apply next_rowid_above; eauto). lia.
Qed.

Lemma next_rowid_empty : next_rowid ∅ = 1.
Proof. reflexivity. Qed.

(** ** The session *)

Lemma session_get_Some (s : store) (i : Z) (r : Row.t) :
  s !! i = Some r → session_get s i = inr (Some (load i r)).
Proof. intros H. unfold session_get. by rewrite H. Qed.

Lemma session_get_None (s : store) (i : Z) :
  s !! i = None → int64 i = true → session_get s i = inr None.
Proof. intros H Hi. unfold session_get. by rewrite H, Hi. Qed.

Lemma session_get_overflow (s : store) (i : Z) :
  s !! i = None → int64 i = false → session_get s i = inl OverflowError.
Proof. intros H Hi. unfold session_get. by rewrite H, Hi. Qed.

Lemma session_get_insert (s : store) (i : Z) (r : Row.t) :
  session_get (<[i := r]> s) i = inr (Some (load i r)).
Proof. apply session_get_Some, lookup_insert_eq. Qed.

(** On a table whose keys are all 64-bit, the lookup is the range check of
    the driver followed by the SELECT. *)
Lemma session_get_bind_then_select (s : store) (i : Z) :
  (∀ k, is_Some (s !! k) → int64 k = true) →
  session_get s i =
    if int64 i then inr (load i <$> s !! i) else inl OverflowError.
Proof.
  intros Hs. unfold session_get. destruct (s !! i) as [r|] eqn:Hi; simpl.
  - by rewrite (Hs i) by eauto.
  - by destruct (int64 i).
Qed.

Lemma get_todo_absent (s : store) (i : Z) :
  s !! i = None → get_todo s i = absent_response i.
Proof.
  intros H. unfold get_todo, session_get, absent_response. rewrite H.
  by destruct (int64 i).
Qed.

Lemma update_todo_absent (s : store) (i : Z) (u : TodoItemUpdate.t) :
  s !! i = None → update_todo s i u = (s, absent_response i).
Proof.
  intros H. unfold update_todo, session_get, absent_response. rewrite H.
  by destruct (int64 i).
Qed.

Lemma delete_todo_absent (s : store) (i : Z) :
  s !! i = None → delete_todo s i = (s, absent_response i).
Proof.
  intros H. unfold delete_todo, session_get, absent_response. rewrite H.
  by destruct (int64 i).
Qed.

Lemma absent_response_creates_nothing (i : Z) : created_id (absent_response i) = None.
Proof. unfold absent_response. by destruct (int64 i). Qed.

Lemma flush_load (i : Z) (r : Row.t) : flush_columns (load i r) = inr r.
Proof. by destruct r. Qed.

Lemma load_inj (i j : Z) (r r' : Row.t) : load i r = load j r' → i = j ∧ r = r'.
Proof. destruct r, r'. unfold load; simpl. intros [= -> -> -> -> -> ->]. done. Qed.

(** What a creation that passes validation does. *)
Lemma create_todo_valid (s : store) (c : TodoItemCreate.t) :
  priority_ok (TodoItemCreate.priority c) = true →
  let r := Row.mk (TodoItemCreate.title c) (TodoItemCreate.description c) false
             (TodoItemCreate.priority c) (TodoItemCreate.due_date c) in
  create_todo s c =
    (<[next_rowid s := r]> s, Response 201 (Entity (load (next_rowid s) r))).
Proof.
  intros Hp. unfold create_todo, model_validate. rewrite Hp.
  unfold session_add_commit; simpl.
  unfold session_refresh. by rewrite session_get_insert.
Qed.

(** What a creation that fails validation does: nothing is written. *)
Lemma create_todo_invalid (s : store) (c : TodoItemCreate.t) :
  priority_ok (TodoItemCreate.priority c) = false →
  create_todo s c = (s, Response 500 InternalServerError).
Proof. intros Hp. unfold create_todo, model_validate. by rewrite Hp. Qed.

(** ** Creation *)

(** C2 (creation postcondition).  For every store and every title, a
    [POST /todos] whose body holds a title and nothing else is answered 201
    with the full entity: the supplied title, [completed] false,
    [description], [priority] and [due_date] null, and an id the store
    assigned, one that no stored entity had; that entity is what the store
    then holds under the id. *)
Theorem create_with_title_only (s : store) (t : string) :
  let i := next_rowid s in
  s !! i = None ∧
  post_todos s (title_only t) =
    (<[i := Row.mk t None false None None]> s,
     Response 201
       (Entity (TodoItem.mk (Some i) (Some t) None (Some false) None None))).
Proof.
  split; [apply next_rowid_fresh|].
  unfold post_todos, title_only; simpl.
  by rewrite create_todo_valid.
Qed.

(** The first step of the scenario of the specification, on a fresh store. *)
Example create_buy_milk :
  post_todos ∅ (title_only "Buy milk") =
    ({[1 := Row.mk "Buy milk" None false None None]},
     Response 201
       (Entity (TodoItem.mk (Some 1) (Some "Buy milk") None (Some false) None None))).
Proof. by destruct (create_with_title_only ∅ "Buy milk") as [_ ->]. Qed.

(** C3 (create/get round trip).  Whenever [POST /todos] answers 201 with an
    entity, the entity carries an id, and [GET /todos/{id}] with that id,
    on the store the creation left, answers 200 with an equal entity. *)
Theorem create_get_roundtrip (s s' : store) (c : TodoItemCreate.t) (e : TodoItem.t) :
  create_todo s c = (s', Response 201 (Entity e)) →
  ∃ i, TodoItem.id e = Some i ∧ get_todo s' i = Response 200 (Entity e).
Proof.
  destruct (priority_ok (TodoItemCreate.priority c)) eqn:Hp.
  - rewrite create_todo_valid by done. intros [= <- <-].
    eexists; split; [reflexivity|].
    unfold get_todo. by rewrite session_get_insert.
  - rewrite create_todo_invalid by done. intros [=].
Qed.

Lemma create_get_roundtrip_witness :
  let c := TodoItemCreate.mk "Buy milk" (Some "2 litres") (Some "High") None in
  let r := Row.mk "Buy milk" (Some "2 litres") false (Some "High") None in
  ∃ i, TodoItem.id (load 1 r) = Some i
       ∧ get_todo (<[1 := r]> ∅) i = Response 200 (Entity (load 1 r)).
Proof.
  intros c r. apply (create_get_roundtrip ∅ _ c).
  rewrite create_todo_valid; reflexivity.
Defined.

(** ** Absent ids *)

(** C5.  For an id the store does not hold, [GET], [PUT] and [DELETE]
    each answer 404 and write nothing, provided the id is a 64-bit integer.
    For an id beyond that range, never created either, none of the three
    reaches its not-found branch: [session.get] raises [OverflowError]
    outside every [try], and the answer is 500.  Shown at the id [2^63] on
    an empty store. *)
Theorem absent_id_outcome :
  (∀ (s : store) (i : Z) (u : TodoItemUpdate.t),
     s !! i = None → int64 i = true →
     get_todo s i = HTTPException 404 "To-Do item not found"
     ∧ update_todo s i u = (s, HTTPException 404 "To-Do item not found")
     ∧ delete_todo s i = (s, HTTPException 404 "To-Do item not found"))
  ∧ get_todo ∅ (2 ^ 63) = Response 500 InternalServerError
  ∧ update_todo ∅ (2 ^ 63) completed_true = (∅, Response 500 InternalServerError)
  ∧ delete_todo ∅ (2 ^ 63) = (∅, Response 500 InternalServerError)
  ∧ (∀ (s : store) (i : Z) (u : TodoItemUpdate.t),
       s !! i = None → int64 i = false →
       get_todo s i = Response 500 InternalServerError
       ∧ update_todo s i u = (s, Response 500 InternalServerError)
       ∧ delete_todo s i = (s, Response 500 InternalServerError)).
Proof.
  split; [|split; [|split; [|split]]]; try reflexivity.
  - intros s i u Hs Hi.
    rewrite get_todo_absent, update_todo_absent, delete_todo_absent by done.
    unfold absent_response. by rewrite Hi.
  - intros s i u Hs Hi.
    rewrite get_todo_absent, update_todo_absent, delete_todo_absent by done.
    unfold absent_response. by rewrite Hi.
Qed.

(** ** Partial update *)

Lemma dump_field_unset {A} (fs : gset string) (name : string) (v : option A) :
  name ∉ fs → dump_field true fs name v = None.
Proof. intros H. unfold dump_field. by rewrite bool_decide_eq_false_2. Qed.

Lemma dump_field_set {A} (fs : gset string) (name : string) (v : option A) :
  name ∈ fs → dump_field true fs name v = Some v.
Proof. intros H. unfold dump_field. by rewrite bool_decide_eq_true_2. Qed.

(** Without [exclude_unset] every field gets a key, mentioned or not. *)
Lemma dump_field_all {A} (fs : gset string) (name : string) (v : option A) :
  dump_field false fs name v = Some v.
Proof. reflexivity. Qed.

(** The handler on an id the store holds: the instance is patched and
    flushed; a refused flush writes nothing. *)
Lemma update_todo_present (s : store) (i : Z) (r : Row.t) (u : TodoItemUpdate.t) :
  s !! i = Some r →
  update_todo s i u =
    match flush_columns (sqlmodel_update (load i r) (model_dump true u)) with
    | inl e => (s, Response 500 (DetailExn "Failed to update todo: " e))
    | inr r' => (<[i := r']> s, Response 200 (Entity (load i r')))
    end.
Proof.
  intros Hr. unfold update_todo. rewrite (session_get_Some _ _ _ Hr).
  unfold session_add_commit.
  destruct (flush_columns _) as [e|r'] eqn:Hf; [done|].
  simpl. unfold session_refresh. by rewrite session_get_insert.
Qed.

(** The row an update writes, field by field. *)
Lemma flush_patched (i : Z) (r r' : Row.t) (u : TodoItemUpdate.t) :
  flush_columns (sqlmodel_update (load i r) (model_dump true u)) = inr r' →
  let fs := TodoItemUpdate.model_fields_set u in
  Some (Row.title r') =
    set_from (dump_field true fs "title" (TodoItemUpdate.title u)) (Some (Row.title r))
  ∧ Row.description r' =
    set_from (dump_field true fs "description" (TodoItemUpdate.description u))
      (Row.description r)
  ∧ Some (Row.completed r') =
    set_from (dump_field true fs "completed" (TodoItemUpdate.completed u))
      (Some (Row.completed r))
  ∧ Row.priority r' =
    set_from (dump_field true fs "priority" (TodoItemUpdate.priority u)) (Row.priority r)
  ∧ Row.due_date r' =
    set_from (dump_field true fs "due_date" (TodoItemUpdate.due_date u)) (Row.due_date r).
Proof.
  unfold flush_columns, sqlmodel_update, model_dump; simpl.
  destruct (set_from (dump_field _ _ "title" _) _) as [t|]; [|done].
  destruct (set_from (dump_field _ _ "completed" _) _) as [c|]; [|done].
  by intros [= <-].
Qed.

(** A refused flush has one of two causes: [title] or [completed] was
    explicitly set to null. *)
Lemma flush_refused (i : Z) (r : Row.t) (u : TodoItemUpdate.t) (e : exn) :
  flush_columns (sqlmodel_update (load i r) (model_dump true u)) = inl e →
  (mentions u "title" ∧ TodoItemUpdate.title u = None)
  ∨ (mentions u "completed" ∧ TodoItemUpdate.completed u = None).
Proof.
  unfold flush_columns, sqlmodel_update, model_dump, dump_field, mentions; simpl.
  do 2 case_bool_decide; simpl;
    destruct (TodoItemUpdate.title u), (TodoItemUpdate.completed u);
    simpl; intros [=]; auto.
Qed.

Lemma model_dump_empty :
  model_dump true empty_update = UpdateData.mk None None None None None.
Proof. reflexivity. Qed.

Lemma model_dump_completed_true :
  model_dump true completed_true = UpdateData.mk None None (Some (Some true)) None None.
Proof. reflexivity. Qed.

Lemma model_dump_description_null :
  model_dump true description_null = UpdateData.mk None (Some None) None None None.
Proof. reflexivity. Qed.

(** Had the handler dumped the model without [exclude_unset], the same
    body [{"completed": true}] would carry a null for every other field. *)
Lemma model_dump_all_completed_true :
  model_dump false completed_true =
    UpdateData.mk (Some None) (Some None) (Some (Some true)) (Some None) (Some None).
Proof. reflexivity. Qed.

(** A dict without keys assigns nothing. *)
Lemma sqlmodel_update_nothing (todo : TodoItem.t) :
  sqlmodel_update todo (UpdateData.mk None None None None None) = todo.
Proof. by destruct todo. Qed.

(** One field of the frame: the patched value is the old one when the
    field is not mentioned, the supplied one when it is. *)
Ltac frame_field H :=
  let Hm := fresh in
  intros Hm; first [ rewrite dump_field_unset in H by exact Hm
                   | rewrite dump_field_set in H by exact Hm ];
  simpl in H; congruence.

(** C1 (partial-update invariant).  For every stored entity and every
    update payload, after [PUT /todos/{id}] the entity is still stored
    under its id and every field the payload does not mention has its prior
    value; when the update is accepted (200) the response is the stored
    entity and every mentioned field holds the value supplied, and when it
    is not the store is as before; no other entity changes.  In particular
    [{"completed": true}] is accepted and changes [completed] alone.  An
    omitted field and a field set to null are told apart: [{}] leaves the
    description in place, [{"description": null}] clears it. *)
Theorem partial_update_frame (s : store) (i : Z) (r : Row.t) (u : TodoItemUpdate.t) :
  s !! i = Some r →
  let s' := fst (update_todo s i u) in
  let resp := snd (update_todo s i u) in
  (∃ r',
     s' !! i = Some r'
     ∧ (¬ mentions u "title" → Row.title r' = Row.title r)
     ∧ (¬ mentions u "description" → Row.description r' = Row.description r)
     ∧ (¬ mentions u "completed" → Row.completed r' = Row.completed r)
     ∧ (¬ mentions u "priority" → Row.priority r' = Row.priority r)
     ∧ (¬ mentions u "due_date" → Row.due_date r' = Row.due_date r)
     ∧ (status_code resp = 200 →
          resp = Response 200 (Entity (load i r'))
          ∧ (mentions u "title" → TodoItemUpdate.title u = Some (Row.title r'))
          ∧ (mentions u "description" →
               TodoItemUpdate.description u = Row.description r')
          ∧ (mentions u "completed" →
               TodoItemUpdate.completed u = Some (Row.completed r'))
          ∧ (mentions u "priority" → TodoItemUpdate.priority u = Row.priority r')
          ∧ (mentions u "due_date" → TodoItemUpdate.due_date u = Row.due_date r'))
     ∧ (status_code resp ≠ 200 → s' = s))
  ∧ (∀ j, j ≠ i → s' !! j = s !! j)
  ∧ update_todo s i completed_true =
      (<[i := Row.mk (Row.title r) (Row.description r) true
                (Row.priority r) (Row.due_date r)]> s,
       Response 200
         (Entity (TodoItem.mk (Some i) (Some (Row.title r)) (Row.description r)
                    (Some true) (Row.priority r) (Row.due_date r))))
  ∧ fst (update_todo s i empty_update) !! i = Some r
  ∧ fst (update_todo s i description_null) !! i =
      Some (Row.mk (Row.title r) None (Row.completed r) (Row.priority r) (Row.due_date r)).
Proof.
  intros Hr s' resp. subst s' resp.
  repeat rewrite (update_todo_present s i r) by done.
  rewrite model_dump_completed_true, model_dump_empty, model_dump_description_null.
  split; [|split; [|split; [|split]]].
  - destruct (flush_columns _) as [e|r'] eqn:Hf; simpl.
    + exists r. repeat split; try done.
    + exists r'. apply flush_patched in Hf. simpl in Hf.
      destruct Hf as (Ht & Hd & Hc & Hp & Hdd). unfold mentions.
      split; [apply lookup_insert_eq|].
      repeat split; try done.
      all: try (frame_field Ht); try (frame_field Hd); try (frame_field Hc);
        try (frame_field Hp); try (frame_field Hdd).
  - intros j Hj. destruct (flush_columns _); simpl; [done|].
    by rewrite lookup_insert_ne.
  - reflexivity.
  - rewrite sqlmodel_update_nothing, flush_load. simpl. by rewrite insert_id.
  - simpl. apply lookup_insert_eq.
Qed.

Lemma partial_update_frame_witness :
  let r := Row.mk "Buy milk" (Some "2 litres") false (Some "High") None in
  let s : store := {[1 := r]} in
  update_todo s 1 completed_true =
    (<[1 := Row.mk "Buy milk" (Some "2 litres") true (Some "High") None]> s,
     Response 200
       (Entity (TodoItem.mk (Some 1) (Some "Buy milk") (Some "2 litres")
                  (Some true) (Some "High") None)))
  ∧ fst (update_todo s 1 empty_update) !! 1 = Some r
  ∧ fst (update_todo s 1 description_null) !! 1 =
      Some (Row.mk "Buy milk" None false (Some "High") None).
Proof.
  intros r s.
  exact (proj2 (proj2 (partial_update_frame s 1 r empty_update
                         (lookup_singleton_eq 1 r)))).
Defined.

(** C10 (empty partial update).  For every id the store holds, [PUT
    /todos/{id}] with the body [{}] answers 200 with the entity as it was
    stored, and leaves the store as it was. *)
Theorem empty_update_is_noop (s : store) (i : Z) (r : Row.t) :
  s !! i = Some r →
  update_todo s i empty_update = (s, Response 200 (Entity (load i r))).
Proof.
  intros Hr. rewrite (update_todo_present s i r) by done.
  rewrite model_dump_empty, sqlmodel_update_nothing, flush_load.
  by rewrite insert_id.
Qed.

Lemma empty_update_is_noop_witness :
  let r := Row.mk "Buy milk" (Some "2 litres") false (Some "High") None in
  update_todo {[1 := r]} 1 empty_update =
    ({[1 := r]},
     Response 200
       (Entity (TodoItem.mk (Some 1) (Some "Buy milk") (Some "2 litres")
                  (Some false) (Some "High") None))).
Proof.
  intros r. exact (empty_update_is_noop {[1 := r]} 1 r (lookup_singleton_eq 1 r)).
Defined.

(** ** Translation *)

(** C6 (translation unavailable).  When the credential is not configured
    (the variable is not set, or set to the empty string), [POST
    /translate] answers 503 for every request and submits nothing to the
    external service, whatever that service would have answered. *)
Theorem translate_unconfigured (key : option string)
    (service : string → exn + string) (request : TranslationRequest.t) :
  key = None ∨ key = Some "" →
  translate_text (configure_gemini key service) request =
    ([], HTTPException 503
           "Translation service not available. API key might be missing or invalid.").
Proof. by intros [-> | ->]. Qed.

Lemma translate_unconfigured_witness :
  translate_text (configure_gemini None (λ prompt, inr prompt))
    (TranslationRequest.mk "Buy milk" "French") =
    ([], HTTPException 503
           "Translation service not available. API key might be missing or invalid.").
Proof.
  apply (translate_unconfigured None (λ prompt, inr prompt)
           (TranslationRequest.mk "Buy milk" "French")).
  by left.
Defined.

(** With a credential the service is called, once, with the prompt. *)
Lemma translate_configured (key : string) (service : string → exn + string)
    (request : TranslationRequest.t) :
  key ≠ "" →
  fst (translate_text (configure_gemini (Some key) service) request) =
    ["Translate the following text into "
     +:+ TranslationRequest.target_language request
     +:+ ": " +:+ TranslationRequest.text request].
Proof.
  intros Hk. unfold configure_gemini. rewrite bool_decide_eq_false_2 by done.
  unfold translate_text; simpl. by destruct (service _).
Qed.

(** ** Title validation *)

(** C7, counterexample.  The body [{"title": ""}] passes validation and
    the entity is created with the empty title. *)
Lemma create_accepts_empty_title :
  post_todos ∅ (title_only "") =
    ({[1 := Row.mk "" None false None None]},
     Response 201
       (Entity (TodoItem.mk (Some 1) (Some "") None (Some false) None None)))
  ∧ ¬ created_title_non_empty.
Proof.
  assert (H : post_todos ∅ (title_only "") =
    ({[1 := Row.mk "" None false None None]},
     Response 201
       (Entity (TodoItem.mk (Some 1) (Some "") None (Some false) None None)))).
  { by destruct (create_with_title_only ∅ "") as [_ ->]. }
  split; [exact H|].
  intros Hclaim. destruct (Hclaim _ _ _ _ H) as (t & [= <-] & Hne). done.
Qed.

(** C7, amended.  A body without title (or whose title is null or not
    text) is answered 422 at validation, the handler is not called and the
    store is untouched; the title of every entity a creation returns is the
    text the body supplied, which may be empty.  A blank title is refused
    by the creation form of the presentation layer alone: every body the
    form posts has a non-empty title. *)
Theorem create_title_validation (s : store) (b : CreateBody.t) :
  (CreateBody.title b = Missing ∨ CreateBody.title b = Null
     ∨ CreateBody.title b = Invalid →
   post_todos s b = (s, Response 422 (RequestValidationError "title")))
  ∧ (∀ s' e, post_todos s b = (s', Response 201 (Entity e)) →
       ∃ t, CreateBody.title b = Valid t ∧ TodoItem.title e = Some t)
  ∧ (∀ new_title new_description new_priority new_due_date b',
       add_todo_form new_title new_description new_priority new_due_date = Some b' →
       CreateBody.title b' = Valid new_title ∧ new_title ≠ "").
Proof.
  split; [|split].
  - unfold post_todos, validate_create_body. by intros [-> | [-> | ->]].
  - intros s' e. unfold post_todos, validate_create_body.
    destruct (CreateBody.title b) as [| |t|]; simpl; try by intros [=].
    destruct (optional_field "description" _) as [?|d]; [by intros [=]|].
    destruct (optional_field "priority" _) as [?|p]; [by intros [=]|].
    destruct (optional_field "due_date" _) as [?|dd]; [by intros [=]|].
    destruct (priority_ok p) eqn:Hp.
    + rewrite create_todo_valid by done. intros [= <- <-]. by exists t.
    + rewrite create_todo_invalid by done. intros [=].
  - intros t d p dd b'. unfold add_todo_form, truthy.
    case_bool_decide as Ht; simpl; [by intros [=]|].
    by intros [= <-].
Qed.

(** ** Priority length *)

(** Creation keeps the bound: [model_validate] checks it before anything
    is written. *)
Lemma create_keeps_priority_bound (s : store) (c : TodoItemCreate.t) :
  priority_bounded s → priority_bounded (fst (create_todo s c)).
Proof.
  intros Hs. destruct (priority_ok (TodoItemCreate.priority c)) eqn:Hp.
  - rewrite create_todo_valid by done. simpl. intros i r.
    destruct (decide (next_rowid s = i)) as [<-|Hne].
    + rewrite lookup_insert_eq. by intros [= <-].
    + rewrite lookup_insert_ne by done. apply Hs.
  - by rewrite create_todo_invalid.
Qed.

Lemma delete_keeps_priority_bound (s : store) (i : Z) :
  priority_bounded s → priority_bounded (fst (delete_todo s i)).
Proof.
  intros Hs. destruct (s !! i) as [x|] eqn:Hi.
  - unfold delete_todo. rewrite (session_get_Some _ _ _ Hi). simpl.
    intros j r Hj. apply lookup_delete_Some in Hj as [_ Hj]. by eapply Hs.
  - by rewrite delete_todo_absent.
Qed.

(** C8, the update path.  On a store holding one entity, [PUT /todos/1]
    with a priority of 51 characters is answered 200 and the priority is
    persisted: [sqlmodel_update] assigns without validating, and
    [TodoItemUpdate] declares no bound.  The same priority is refused on
    creation. *)
Theorem update_persists_long_priority :
  let s : store := {[1 := Row.mk "Buy milk" None false None None]} in
  let u := TodoItemUpdate.mk None None None (Some long_priority) None {["priority"]} in
  String.length long_priority = 51%nat
  ∧ priority_bounded s
  ∧ update_todo s 1 u =
      ({[1 := Row.mk "Buy milk" None false (Some long_priority) None]},
       Response 200
         (Entity (TodoItem.mk (Some 1) (Some "Buy milk") None (Some false)
                    (Some long_priority) None)))
  ∧ ¬ priority_bounded (fst (update_todo s 1 u))
  ∧ create_todo s (TodoItemCreate.mk "Buy milk" None (Some long_priority) None) =
      (s, Response 500 InternalServerError).
Proof.
  intros s u.
  assert (Hu : update_todo s 1 u =
      ({[1 := Row.mk "Buy milk" None false (Some long_priority) None]},
       Response 200
         (Entity (TodoItem.mk (Some 1) (Some "Buy milk") None (Some false)
                    (Some long_priority) None)))).
  { assert (Hd : model_dump true u =
              UpdateData.mk None None None (Some (Some long_priority)) None)
      by reflexivity.
    subst s. erewrite update_todo_present by apply lookup_singleton_eq.
    rewrite Hd. simpl. by rewrite insert_singleton_eq. }
  split; [reflexivity|]. split; [|split; [exact Hu|split]].
  - intros i r Hi. apply lookup_singleton_Some in Hi as [_ <-]. reflexivity.
  - rewrite Hu; simpl. intros Hb.
    specialize (Hb 1 _ (lookup_singleton_eq _ _)). discriminate Hb.
  - by rewrite create_todo_invalid.
Qed.

(** ** Ids *)

(** C9, counterexample.  Create an entity, delete it, create another: the
    second entity gets the id of the first. *)
Lemma id_reused_after_delete :
  let a := TodoItemCreate.mk "Buy milk" None None None in
  let b := TodoItemCreate.mk "Walk the dog" None None None in
  snd (serve ∅ [POST a; DELETE 1; POST b]) =
    [ Response 201
        (Entity (TodoItem.mk (Some 1) (Some "Buy milk") None (Some false) None None));
      Response 204 NoContent;
      Response 201
        (Entity (TodoItem.mk (Some 1) (Some "Walk the dog") None (Some false) None None)) ]
  ∧ ¬ ids_assigned_once.
Proof.
  intros a b.
  assert (H : snd (serve ∅ [POST a; DELETE 1; POST b]) =
    [ Response 201
        (Entity (TodoItem.mk (Some 1) (Some "Buy milk") None (Some false) None None));
      Response 204 NoContent;
      Response 201
        (Entity (TodoItem.mk (Some 1) (Some "Walk the dog") None (Some false) None None)) ])
    by (vm_compute; reflexivity).
  split; [exact H|].
  intros Hclaim. specialize (Hclaim [POST a; DELETE 1; POST b]).
  rewrite H in Hclaim. simpl in Hclaim.
  apply NoDup_cons in Hclaim as [Hnotin _]. apply Hnotin. left.
Qed.

Lemma created_id_handle (s : store) (q : request) (i : Z) :
  created_id (snd (handle s q)) = Some i →
  ∃ c, q = POST c ∧ i = next_rowid s ∧ is_Some (fst (handle s q) !! i).
Proof.
  destruct q as [c|j|j u|j]; simpl.
  - destruct (priority_ok (TodoItemCreate.priority c)) eqn:Hp.
    + rewrite create_todo_valid by done. simpl. intros [= <-].
      exists c. rewrite lookup_insert_eq. eauto.
    + rewrite create_todo_invalid by done. intros [=].
  - unfold get_todo. destruct (session_get s j) as [e|[todo|]]; intros [=].
  - unfold update_todo.
    destruct (session_get s j) as [e|[todo|]]; [intros [=]| |intros [=]].
    destruct (session_add_commit s _) as [e|[s' k]]; [intros [=]|].
    destruct (session_refresh s' k); intros [=].
  - unfold delete_todo.
    destruct (session_get s j) as [e|[todo|]]; [intros [=]| |intros [=]].
    destruct (session_delete_commit s todo); intros [=].
Qed.

(** A request that neither creates nor deletes leaves the ids in use. *)
Ltac same_ids :=
  let H := fresh in
  split;
  [ intros H; left; split; [exact H | discriminate]
  | intros [[H _]|H]; [exact H | discriminate H] ].

(** The ids in use after a request: those in use before, without the one
    deleted, with the one created. *)
Lemma handle_lookup (s : store) (q : request) (i : Z) :
  is_Some (fst (handle s q) !! i) ↔
  (is_Some (s !! i) ∧ q ≠ DELETE i) ∨ created_id (snd (handle s q)) = Some i.
Proof.
  destruct q as [c|j|j u|j]; simpl.
  - destruct (priority_ok (TodoItemCreate.priority c)) eqn:Hp.
    + rewrite create_todo_valid by done. simpl.
      rewrite lookup_insert_is_Some. split.
      * intros [<-|[_ H]]; [by right | by left].
      * intros [[H _]|[= <-]]; [|by left].
        destruct (decide (next_rowid s = i)); [by left | by right].
    + rewrite create_todo_invalid by done. simpl. same_ids.
  - unfold get_todo. destruct (session_get s j) as [e|[todo|]]; simpl; same_ids.
  - destruct (s !! j) as [r|] eqn:Hj.
    + rewrite (update_todo_present s j r) by done.
      destruct (flush_columns _); simpl; [same_ids|].
      rewrite lookup_insert_is_Some. split.
      * intros [<-|[_ H]]; left; split; eauto; done.
      * intros [[H _]|[=]]. destruct (decide (j = i)); [by left | by right].
    + rewrite update_todo_absent by done. unfold absent_response.
      destruct (int64 j); simpl; same_ids.
  - destruct (s !! j) as [r|] eqn:Hj.
    + unfold delete_todo. rewrite (session_get_Some _ _ _ Hj). simpl.
      rewrite lookup_delete_is_Some. split.
      * intros [Hne H]. left. split; [done | congruence].
      * intros [[H Hne]|[=]]. split; [congruence | done].
    + rewrite delete_todo_absent by done. simpl.
      rewrite absent_response_creates_nothing. split.
      * intros H. left. split; [done|]. intros [= ->].
        rewrite Hj in H. by destruct H.
      * intros [[H _]|[=]]. exact H.
Qed.

Lemma created_ids_cons (r : response) (rs : list response) :
  created_ids (r :: rs) =
    match created_id r with
    | Some i => i :: created_ids rs
    | None => created_ids rs
    end.
Proof. reflexivity. Qed.

Lemma serve_cons (s : store) (q : request) (qs : list request) :
  snd (serve s (q :: qs)) =
    snd (handle s q) :: snd (serve (fst (handle s q)) qs).
Proof. simpl. destruct (handle s q) as [s1 r]; simpl. by destruct (serve s1 qs). Qed.

Lemma serve_cons_store (s : store) (q : request) (qs : list request) :
  fst (serve s (q :: qs)) = fst (serve (fst (handle s q)) qs).
Proof. simpl. destruct (handle s q) as [s1 r]; simpl. by destruct (serve s1 qs). Qed.

(** As long as nothing is deleted, the ids handed out are not in use
    beforehand and differ from one another. *)
Lemma created_ids_distinct (qs : list request) (s : store) :
  no_delete qs →
  (∀ i, i ∈ created_ids (snd (serve s qs)) → s !! i = None)
  ∧ NoDup (created_ids (snd (serve s qs))).
Proof.
  revert s. induction qs as [|q qs IH]; intros s Hnd.
  - split; [intros i Hi; simpl in Hi; by apply elem_of_nil in Hi | constructor].
  - apply Forall_cons in Hnd as [Hq Hnd].
    rewrite serve_cons, created_ids_cons.
    destruct (IH (fst (handle s q)) Hnd) as [Hfresh Hdup].
    assert (Hkept : ∀ i, fst (handle s q) !! i = None → s !! i = None).
    { intros i H1. destruct (s !! i) as [x|] eqn:Hx; [|done].
      assert (is_Some (fst (handle s q) !! i)) as [y Hy]
        by (apply handle_lookup; left; eauto).
      congruence. }
    destruct (created_id (snd (handle s q))) as [i|] eqn:Hr.
    + destruct (created_id_handle s q i Hr) as (c & _ & -> & Hin). split.
      * intros j [->|Hj]%elem_of_cons; [apply next_rowid_fresh | auto].
      * constructor; [|done]. intros Hj. apply Hfresh in Hj.
        rewrite Hj in Hin. by destruct Hin.
    + split; [auto | done].
Qed.

(** C9, amended.  An id is assigned by the store, at creation only, and is
    then larger than every id in use, hence distinct from the id of every
    entity the store holds; an entity stays under its id, and the id it
    carries is that id, until a [DELETE] of that very id; no request but a
    creation brings an id into use; and as long as no request is a
    [DELETE], the ids handed out differ from one another.  (An id whose
    entity was deleted is not kept from later creations.) *)
Theorem ids_fresh_and_stable (s : store) (q : request) (qs : list request) :
  let s' := fst (handle s q) in
  let resp := snd (handle s q) in
  (∀ i, created_id resp = Some i →
        (∃ c, q = POST c) ∧ s !! i = None ∧ is_Some (s' !! i)
        ∧ ∀ j, is_Some (s !! j) → j < i)
  ∧ (∀ i, is_Some (s !! i) → q ≠ DELETE i → is_Some (s' !! i))
  ∧ (∀ i e, session_get s' i = inr (Some e) → TodoItem.id e = Some i)
  ∧ (∀ i, s !! i = None → is_Some (s' !! i) → created_id resp = Some i)
  ∧ (no_delete qs → NoDup (created_ids (snd (serve s qs)))).
Proof.
  intros s' resp. subst s' resp. repeat split.
  - destruct (created_id_handle s q i H) as (c & -> & _). eauto.
  - destruct (created_id_handle s q i H) as (c & _ & -> & _).
    apply next_rowid_fresh.
  - by destruct (created_id_handle s q i H) as (c & _ & _ & ?).
  - intros j Hj. destruct (created_id_handle s q i H) as (c & _ & -> & _).
    by apply next_rowid_above.
  - intros i Hi Hq. apply handle_lookup. by left.
  - intros i e. unfold session_get.
    destruct (_ !! i); simpl; [by intros [= <-] | by destruct (int64 i)].
  - intros i Hnone Hi. apply handle_lookup in Hi as [[H _]|H]; [|done].
    rewrite Hnone in H. by destruct H.
  - intros Hnd. by apply created_ids_distinct.
Qed.

(** ** Deletion, and what follows it *)





(** ** The scenario of the specification *)

(** [POST {"title": "Buy milk"}], [PUT /todos/1 {"priority": "High"}],
    [DELETE /todos/1], [GET /todos/1] on a fresh store: 201 with id 1 and
    [completed] false, 200 with the title unchanged and the priority set,
    204, 404; the store is empty again. *)
Example scenario :
  serve ∅
    [ POST (TodoItemCreate.mk "Buy milk" None None None);
      PUT 1 (TodoItemUpdate.mk None None None (Some "High") None {["priority"]});
      DELETE 1;
      GET 1 ] =
  (∅,
   [ Response 201
       (Entity (TodoItem.mk (Some 1) (Some "Buy milk") None (Some false) None None));
     Response 200
       (Entity (TodoItem.mk (Some 1) (Some "Buy milk") None (Some false)
                  (Some "High") None));
     Response 204 NoContent;
     HTTPException 404 "To-Do item not found" ]).
Proof. vm_compute. reflexivity. Qed.

(** * Further properties of the handlers *)

(** ** Listing *)

Lemma elem_of_get_all_todos (s : store) (e : TodoItem.t) :
  e ∈ get_all_todos s ↔ ∃ i r, s !! i = Some r ∧ e = load i r.
Proof.
  unfold get_all_todos. rewrite list_elem_of_fmap. split.
  - intros ([i r] & -> & Hin).
    rewrite merge_sort_Permutation in Hin.
    apply elem_of_map_to_list in Hin. eauto.
  - intros (i & r & Hr & ->). exists (i, r). split; [done|].
    rewrite merge_sort_Permutation. by apply elem_of_map_to_list.
Qed.

Lemma get_todo_found (s : store) (i : Z) (e : TodoItem.t) :
  get_todo s i = Response 200 (Entity e) ↔ ∃ r, s !! i = Some r ∧ e = load i r.
Proof.
  destruct (s !! i) as [r|] eqn:Hi.
  - unfold get_todo. rewrite (session_get_Some _ _ _ Hi). split.
    + intros [= <-]. eauto.
    + by intros (r' & [= <-] & ->).
  - rewrite get_todo_absent by done. unfold absent_response. split.
    + destruct (int64 i); intros [=].
    + by intros (r' & [=] & _).
Qed.

(** X1.  [GET /todos] and [GET /todos/{id}] agree: an entity is in the
    list exactly when it carries an id under which [GET /todos/{id}]
    answers 200 with that entity. *)
Theorem list_get_agreement (s : store) (e : TodoItem.t) :
  e ∈ get_all_todos s ↔
  ∃ i, TodoItem.id e = Some i ∧ get_todo s i = Response 200 (Entity e).
Proof.
  rewrite elem_of_get_all_todos. split.
  - intros (i & r & Hr & ->). exists i. split; [done|].
    apply get_todo_found. eauto.
  - intros (i & _ & (r & Hr & ->)%get_todo_found). eauto.
Qed.

(** X2.  The list has one entry per stored entity: as many entries as the
    store has rows, and no id twice. *)
Theorem list_one_entry_each (s : store) :
  length (get_all_todos s) = size s
  ∧ NoDup (TodoItem.id <$> get_all_todos s).
Proof.
  unfold get_all_todos. split.
  - rewrite length_fmap, merge_sort_Permutation. apply length_map_to_list.
  - rewrite <- list_fmap_compose.
    assert (Heq : TodoItem.id ∘ (λ kr : Z * Row.t, load kr.1 kr.2) = Some ∘ fst)
      by reflexivity.
    rewrite Heq, list_fmap_compose. apply NoDup_fmap_2; [apply _|].
    rewrite merge_sort_Permutation. apply NoDup_fst_map_to_list.
Qed.

(** ** Errors write nothing *)

(** X3.  A request answered with an error status (400 and above) leaves
    the store exactly as it was. *)
Theorem error_writes_nothing (s : store) (q : request) :
  400 ≤ status_code (snd (handle s q)) → fst (handle s q) = s.
Proof.
  destruct q as [c|j|j u|j]; simpl.
  - destruct (priority_ok (TodoItemCreate.priority c)) eqn:Hp.
    + rewrite create_todo_valid by done. simpl. lia.
    + by rewrite create_todo_invalid.
  - done.
  - destruct (s !! j) as [r|] eqn:Hj.
    + rewrite (update_todo_present s j r) by done.
      destruct (flush_columns _); simpl; [done | lia].
    + by rewrite update_todo_absent.
  - destruct (s !! j) as [r|] eqn:Hj.
    + unfold delete_todo. rewrite (session_get_Some _ _ _ Hj). simpl. lia.
    + by rewrite delete_todo_absent.
Qed.

Lemma error_writes_nothing_witness :
  let s : store := {[1 := Row.mk "Buy milk" None false None None]} in
  fst (handle s (PUT 1 (TodoItemUpdate.mk None None None None None {["title"]}))) = s.
Proof.
  intros s. apply (error_writes_nothing s). vm_compute. discriminate.
Defined.

(** ** Updates *)

Lemma patch_again (i : Z) (r r' : Row.t) (d : UpdateData.t) :
  flush_columns (sqlmodel_update (load i r) d) = inr r' →
  flush_columns (sqlmodel_update (load i r') d) = inr r'.
Proof.
  destruct d as [[[t|]|] [de|] [[c|]|] [p|] [dd|]], r, r'; simpl;
    intros [=]; subst; reflexivity.
Qed.

(** X4.  [PUT] is idempotent: sending the same payload to the same id a
    second time gets the same answer and leaves the store as the first
    left it. *)
Theorem update_idempotent (s : store) (i : Z) (u : TodoItemUpdate.t) :
  update_todo (fst (update_todo s i u)) i u =
    (fst (update_todo s i u), snd (update_todo s i u)).
Proof.
  destruct (s !! i) as [r|] eqn:Hi.
  - rewrite (update_todo_present s i r) by done.
    destruct (flush_columns _) as [e|r'] eqn:Hf; simpl.
    + rewrite (update_todo_present s i r) by done. by rewrite Hf.
    + rewrite (update_todo_present _ i r') by apply lookup_insert_eq.
      rewrite (patch_again _ _ _ _ Hf). by rewrite insert_insert_eq.
  - rewrite (update_todo_absent s i u Hi). simpl. by apply update_todo_absent.
Qed.

(** X5.  The entity a [PUT] returns with 200 is the entity [GET] then
    returns for the id. *)
Theorem update_get_roundtrip (s s' : store) (i : Z) (u : TodoItemUpdate.t)
    (e : TodoItem.t) :
  update_todo s i u = (s', Response 200 (Entity e)) →
  get_todo s' i = Response 200 (Entity e).
Proof.
  destruct (s !! i) as [r|] eqn:Hi.
  - rewrite (update_todo_present s i r) by done.
    destruct (flush_columns _) as [?|r']; intros [= <- <-].
    unfold get_todo. by rewrite session_get_insert.
  - rewrite update_todo_absent by done. unfold absent_response.
    destruct (int64 i); intros [=].
Qed.

Lemma update_get_roundtrip_witness :
  let r := Row.mk "Buy milk" None false None None in
  let r' := Row.mk "Buy milk" None true None None in
  get_todo (<[1 := r']> {[1 := r]}) 1 = Response 200 (Entity (load 1 r')).
Proof.
  intros r r'. apply (update_get_roundtrip {[1 := r]} _ 1 completed_true).
  rewrite (update_todo_present _ 1 r) by apply lookup_singleton_eq.
  reflexivity.
Defined.

(** X6.  On an id the store holds, a [PUT] fails exactly when the payload
    sets [title] or [completed] to null.  The answer is then 500 with the
    integrity error of the nulled column, [title] when the title is
    nulled and [completed] when only [completed] is, and nothing is
    written; every other [PUT] is answered 200. *)
Theorem update_outcome (s : store) (i : Z) (r : Row.t) (u : TodoItemUpdate.t) :
  s !! i = Some r →
  let nulls_title := mentions u "title" ∧ TodoItemUpdate.title u = None in
  let nulls_completed :=
    mentions u "completed" ∧ TodoItemUpdate.completed u = None in
  (nulls_title →
     update_todo s i u =
       (s, Response 500 (DetailExn "Failed to update todo: " (IntegrityError "title"))))
  ∧ (¬ nulls_title → nulls_completed →
     update_todo s i u =
       (s, Response 500
             (DetailExn "Failed to update todo: " (IntegrityError "completed"))))
  ∧ (¬ nulls_required u → status_code (snd (update_todo s i u)) = 200).
Proof.
  intros Hr nt nc. subst nt nc. rewrite (update_todo_present s i r) by done.
  unfold flush_columns, sqlmodel_update, model_dump, nulls_required, mentions; simpl.
  split; [|split].
  - intros [Hm Hn]. by rewrite dump_field_set, Hn by done.
  - intros Hnt [Hm Hn].
    rewrite (dump_field_set _ "completed"), Hn by done. simpl.
    destruct (decide ("title" ∈ TodoItemUpdate.model_fields_set u)) as [Ht|Ht].
    + rewrite dump_field_set by done. simpl.
      destruct (TodoItemUpdate.title u) as [x|] eqn:Hx; [done|].
      destruct Hnt. by split.
    + by rewrite dump_field_unset by done.
  - intros Hn.
    destruct (decide ("title" ∈ TodoItemUpdate.model_fields_set u)) as [Ht|Ht];
      destruct (decide ("completed" ∈ TodoItemUpdate.model_fields_set u)) as [Hc|Hc];
      rewrite ?(dump_field_set _ "title"), ?(dump_field_unset _ "title"),
        ?(dump_field_set _ "completed"), ?(dump_field_unset _ "completed") by done;
      simpl;
      destruct (TodoItemUpdate.title u) eqn:Hx;
      destruct (TodoItemUpdate.completed u) eqn:Hy; simpl; try done;
      destruct Hn; auto.
Qed.

Lemma update_outcome_witness :
  let r := Row.mk "Buy milk" None false None None in
  let u := TodoItemUpdate.mk None None None None None {["title"; "completed"]} in
  update_todo {[1 := r]} 1 u =
    ({[1 := r]},
     Response 500 (DetailExn "Failed to update todo: " (IntegrityError "title"))).
Proof.
  intros r u.
  apply (proj1 (update_outcome {[1 := r]} 1 r u (lookup_singleton_eq 1 r))).
  split; [|reflexivity]. unfold mentions; simpl. apply elem_of_union_l.
  by apply elem_of_singleton.
Defined.

(** Nulling [completed] alone names that column. *)
Example update_nulls_completed :
  let r := Row.mk "Buy milk" None false None None in
  let u := TodoItemUpdate.mk None None None None None {["completed"]} in
  update_todo {[1 := r]} 1 u =
    ({[1 := r]},
     Response 500 (DetailExn "Failed to update todo: " (IntegrityError "completed"))).
Proof. vm_compute. reflexivity. Qed.

(** ** Creation, deletion and the other entities *)

(** X7.  Deleting the entity a creation has just returned gives back the
    store as it was before the creation. *)
Theorem create_then_delete (s s' : store) (c : TodoItemCreate.t) (e : TodoItem.t) :
  create_todo s c = (s', Response 201 (Entity e)) →
  ∃ i, TodoItem.id e = Some i ∧ delete_todo s' i = (s, Response 204 NoContent).
Proof.
  destruct (priority_ok (TodoItemCreate.priority c)) eqn:Hp.
  - rewrite create_todo_valid by done. intros [= <- <-].
    eexists; split; [reflexivity|].
    unfold delete_todo. rewrite session_get_insert. simpl.
    by rewrite delete_insert_id by apply next_rowid_fresh.
  - rewrite create_todo_invalid by done. intros [=].
Qed.

Lemma create_then_delete_witness :
  let r := Row.mk "Buy milk" None false None None in
  ∃ i, TodoItem.id (load 1 r) = Some i
       ∧ delete_todo (<[1 := r]> ∅) i = (∅, Response 204 NoContent).
Proof.
  intros r.
  apply (create_then_delete ∅ _ (TodoItemCreate.mk "Buy milk" None None None)).
  rewrite create_todo_valid; reflexivity.
Defined.

(** X8.  A request leaves every entity it does not address as it is: a
    creation, a read, and an update or deletion of another id change no
    field of a stored entity. *)
Theorem other_entities_untouched (s : store) (q : request) (i : Z) :
  is_Some (s !! i) → (∀ u, q ≠ PUT i u) → q ≠ DELETE i →
  fst (handle s q) !! i = s !! i.
Proof.
  intros Hi Hput Hdel. destruct q as [c|j|j u|j]; simpl.
  - destruct (priority_ok (TodoItemCreate.priority c)) eqn:Hp.
    + rewrite create_todo_valid by done. simpl.
      apply lookup_insert_ne. intros Heq.
      apply next_rowid_above in Hi. lia.
    + by rewrite create_todo_invalid.
  - done.
  - assert (j ≠ i) by (intros ->; by apply (Hput u)).
    destruct (s !! j) as [r|] eqn:Hj.
    + rewrite (update_todo_present s j r) by done.
      destruct (flush_columns _); simpl; [done|]. by apply lookup_insert_ne.
    + by rewrite update_todo_absent.
  - assert (j ≠ i) by congruence.
    destruct (s !! j) as [r|] eqn:Hj.
    + unfold delete_todo. rewrite (session_get_Some _ _ _ Hj). simpl.
      by apply lookup_delete_ne.
    + by rewrite delete_todo_absent.
Qed.

Lemma other_entities_untouched_witness :
  let a := Row.mk "Buy milk" None false None None in
  let b := Row.mk "Walk the dog" None false None None in
  let s : store := <[2 := b]> {[1 := a]} in
  fst (handle s (DELETE 2)) !! 1 = s !! 1.
Proof.
  intros a b s. apply (other_entities_untouched s (DELETE 2) 1).
  - exists a. reflexivity.
  - intros u. discriminate.
  - discriminate.
Defined.

(** X9.  A creation is answered 201 exactly when the priority is absent or
    within 50 characters, and then the store holds exactly one entity
    more; a longer priority is answered 500 by the uncaught validation
    error, before anything is written. *)
Theorem create_outcome (s : store) (c : TodoItemCreate.t) :
  (status_code (snd (create_todo s c)) = 201
   ↔ priority_ok (TodoItemCreate.priority c) = true)
  ∧ (status_code (snd (create_todo s c)) = 201 →
       size (fst (create_todo s c)) = S (size s))
  ∧ (status_code (snd (create_todo s c)) ≠ 201 →
       create_todo s c = (s, Response 500 InternalServerError)).
Proof.
  destruct (priority_ok (TodoItemCreate.priority c)) eqn:Hp.
  - rewrite create_todo_valid by done. simpl. repeat split; try done.
    intros _. apply map_size_insert_None, next_rowid_fresh.
  - rewrite create_todo_invalid by done. simpl. repeat split; try done.
Qed.

(** ** The priority bound *)

(** X10.  The bound on stored priorities is kept by every request except
    a [PUT] that supplies a priority beyond it: creations, reads and
    deletions keep it, and so does every [PUT] whose payload leaves the
    priority out or supplies one within the bound. *)
Theorem priority_bound_kept (s : store) (q : request) :
  priority_bounded s → within_priority_bound q →
  priority_bounded (fst (handle s q)).
Proof.
  intros Hs Hq. destruct q as [c|j|j u|j]; simpl.
  - by apply create_keeps_priority_bound.
  - done.
  - destruct (s !! j) as [r|] eqn:Hj.
    + rewrite (update_todo_present s j r) by done.
      destruct (flush_columns _) as [e|r'] eqn:Hf; simpl; [done|].
      intros k x. destruct (decide (j = k)) as [<-|Hne].
      * rewrite lookup_insert_eq. intros [= <-].
        apply flush_patched in Hf. simpl in Hf.
        destruct Hf as (_ & _ & _ & Hp & _). rewrite Hp.
        destruct (decide ("priority" ∈ TodoItemUpdate.model_fields_set u)) as [Hm|Hm].
        -- rewrite dump_field_set by done. simpl. by eapply Hq.
        -- rewrite dump_field_unset by done. simpl. by eapply Hs.
      * rewrite lookup_insert_ne by done. apply Hs.
    + by rewrite update_todo_absent.
  - by apply delete_keeps_priority_bound.
Qed.

Lemma priority_bound_kept_witness :
  let s : store := {[1 := Row.mk "Buy milk" None false None None]} in
  let u := TodoItemUpdate.mk None None None (Some "High") None {["priority"]} in
  priority_bounded (fst (handle s (PUT 1 u))).
Proof.
  intros s u. apply (priority_bound_kept s (PUT 1 u)).
  - intros i r Hi. apply lookup_singleton_Some in Hi as [_ <-]. reflexivity.
  - intros i u' [= <- <-] _. reflexivity.
Defined.

(** ** Translation with a credential *)

Lemma translate_text_configured (key : string) (service : string → exn + string)
    (request : TranslationRequest.t) :
  key ≠ "" →
  translate_text (configure_gemini (Some key) service) request =
    (["Translate the following text into "
      +:+ TranslationRequest.target_language request
      +:+ ": " +:+ TranslationRequest.text request],
     match service ("Translate the following text into "
                    +:+ TranslationRequest.target_language request
                    +:+ ": " +:+ TranslationRequest.text request) with
     | inr translated => Response 200 (Translation translated)
     | inl e => Response 500 (DetailExn "Failed to translate text: " e)
     end).
Proof.
  intros Hk. unfold configure_gemini.
  rewrite bool_decide_eq_false_2 by done.
  unfold translate_text; simpl. by destruct (service _).
Qed.

(** X11.  With a non-empty credential the translation is a pass-through:
    the service is called exactly once, with the prompt built from the
    target language and the text; its output is returned unchanged with
    200, and its failure is answered 500 with the error. *)
Theorem translate_pass_through (key : string) (service : string → exn + string)
    (request : TranslationRequest.t) :
  key ≠ "" →
  let prompt := "Translate the following text into "
                +:+ TranslationRequest.target_language request
                +:+ ": " +:+ TranslationRequest.text request in
  translate_text (configure_gemini (Some key) service) request =
    ([prompt],
     match service prompt with
     | inr translated => Response 200 (Translation translated)
     | inl e => Response 500 (DetailExn "Failed to translate text: " e)
     end).
Proof. intros Hk prompt. by apply translate_text_configured. Qed.

Lemma translate_pass_through_witness :
  translate_text (configure_gemini (Some "secret") (λ p, inr ("Acheter du lait")))
    (TranslationRequest.mk "Buy milk" "French") =
    (["Translate the following text into French: Buy milk"],
     Response 200 (Translation "Acheter du lait")).
Proof.
  apply (translate_pass_through "secret" (λ p, inr ("Acheter du lait"))
           (TranslationRequest.mk "Buy milk" "French")).
  discriminate.
Defined.

(** ** Creation with a full payload *)

(** X12.  A creation whose priority is within the bound stores every
    field as supplied: the answer is 201 with the title, description,
    priority and due date of the payload, [completed] false and an id that
    was not in use, and the store holds that entity under the id. *)
Theorem create_reflects_payload (s : store) (c : TodoItemCreate.t) :
  priority_ok (TodoItemCreate.priority c) = true →
  ∃ i s',
    s !! i = None
    ∧ create_todo s c =
        (s', Response 201
               (Entity (TodoItem.mk (Some i) (Some (TodoItemCreate.title c))
                          (TodoItemCreate.description c) (Some false)
                          (TodoItemCreate.priority c) (TodoItemCreate.due_date c))))
    ∧ s' !! i =
        Some (Row.mk (TodoItemCreate.title c) (TodoItemCreate.description c) false
                (TodoItemCreate.priority c) (TodoItemCreate.due_date c)).
Proof.
  intros Hp. eexists (next_rowid s), _. split; [apply next_rowid_fresh|].
  split; [by rewrite create_todo_valid|]. apply lookup_insert_eq.
Qed.

Lemma create_reflects_payload_witness :
  let c := TodoItemCreate.mk "Buy milk" (Some "2 litres") (Some "High")
             (Some (mk_date 2025 1 31)) in
  ∃ i s',
    (∅ : store) !! i = None
    ∧ create_todo ∅ c =
        (s', Response 201
               (Entity (TodoItem.mk (Some i) (Some "Buy milk") (Some "2 litres")
                          (Some false) (Some "High") (Some (mk_date 2025 1 31)))))
    ∧ s' !! i =
        Some (Row.mk "Buy milk" (Some "2 litres") false (Some "High")
                (Some (mk_date 2025 1 31))).
Proof. intros c. exact (create_reflects_payload ∅ c eq_refl). Defined.

(** ** The range of the ids *)

Lemma max_rowid_attained (s : store) (m : Z) :
  max_rowid s = Some m → is_Some (s !! m).
Proof.
  unfold max_rowid. revert m.
  apply (map_fold_weak_ind (λ acc (st : store),
           ∀ m, acc = Some m → is_Some (st !! m))).
  - intros m [=].
  - intros i x st acc Hfresh IH m [= <-].
    destruct acc as [a|]; [|rewrite lookup_insert_eq; eauto].
    apply lookup_insert_is_Some'.
    destruct (Z.max_spec i a) as [[_ ->]|[_ ->]]; [right; by apply IH | by left].
Qed.

Lemma next_rowid_within (s : store) (n : Z) :
  0 ≤ n → (∀ k, is_Some (s !! k) → 1 ≤ k ≤ n) →
  1 ≤ next_rowid s ≤ n + 1.
Proof.
  intros Hn Hs. unfold next_rowid. destruct (max_rowid s) as [m|] eqn:Hm; [|lia].
  apply max_rowid_attained, Hs in Hm. lia.
Qed.

Lemma serve_ids_within (qs : list request) (s : store) (n : Z) :
  0 ≤ n → (∀ k, is_Some (s !! k) → 1 ≤ k ≤ n) →
  ∀ k, is_Some (fst (serve s qs) !! k) →
       1 ≤ k ≤ n + Z.of_nat (length (created_ids (snd (serve s qs)))).
Proof.
  revert s n. induction qs as [|q qs IH]; intros s n Hn Hs k.
  - simpl. intros Hk. apply Hs in Hk. lia.
  - rewrite serve_cons_store, serve_cons, created_ids_cons.
    destruct (created_id (snd (handle s q))) as [i|] eqn:Hc.
    + intros Hk. simpl length. rewrite Nat2Z.inj_succ.
      destruct (created_id_handle s q i Hc) as (c & _ & -> & _).
      pose proof (next_rowid_within s n Hn Hs) as Hnext.
      assert (1 ≤ k ≤ (n + 1)
                + Z.of_nat (length (created_ids (snd (serve (fst (handle s q)) qs)))));
        [|lia].
      apply IH; [lia| |done].
      intros j [[Hj _]|Hj]%handle_lookup.
      * apply Hs in Hj. lia.
      * rewrite Hc in Hj. injection Hj as <-. lia.
    + apply IH; [done|].
      intros j [[Hj _]|Hj]%handle_lookup; [by apply Hs | congruence].
Qed.

(** X13.  From an empty table on, whatever requests are served, every id
    in use lies between 1 and the number of creations answered 201 so
    far. *)
Theorem ids_within_creations (qs : list request) (i : Z) :
  is_Some (fst (serve ∅ qs) !! i) →
  1 ≤ i ≤ Z.of_nat (length (created_ids (snd (serve ∅ qs)))).
Proof.
  intros Hi. apply (serve_ids_within qs ∅ 0) in Hi; [lia | lia |].
  intros k. rewrite lookup_empty. by intros [? ?].
Qed.

Lemma ids_within_creations_witness :
  let a := TodoItemCreate.mk "Buy milk" None None None in
  let b := TodoItemCreate.mk "Walk the dog" None None None in
  let qs := [POST a; POST b; DELETE 1] in
  1 ≤ 2 ≤ Z.of_nat (length (created_ids (snd (serve ∅ qs)))).
Proof.
  intros a b qs. apply (ids_within_creations qs 2). vm_compute. eauto.
Defined.

(** * Properties of the presentation layer *)

(** ** Adding *)

Lemma validate_add_todo_data (title : string) (description priority : option string)
    (due_date : option date) :
  validate_create_body (add_todo_data title description priority due_date) =
    inr (TodoItemCreate.mk title (non_empty description) (non_empty priority) due_date).
Proof.
  unfold validate_create_body, add_todo_data, non_empty; simpl.
  destruct description as [d|], priority as [p|], due_date as [dd|]; simpl;
    repeat (destruct (negb _); simpl); reflexivity.
Qed.

Lemma add_todo_to_backend_eq (s : store) (title : string)
    (description priority : option string) (due_date : option date) :
  add_todo_to_backend s title description priority due_date =
    if priority_ok (non_empty priority)
    then (<[next_rowid s :=
              Row.mk title (non_empty description) false (non_empty priority) due_date]> s,
          true)
    else (s, false).
Proof.
  unfold add_todo_to_backend, post_todos. rewrite validate_add_todo_data.
  destruct (priority_ok (non_empty priority)) eqn:Hp.
  - by rewrite create_todo_valid.
  - by rewrite create_todo_invalid.
Qed.

(** X14.  [add_todo_to_backend] never meets a validation error: whatever
    its arguments (an empty title included), the body it posts reaches the
    handler, with an empty description or priority left out and so stored
    as null.  It returns [True], with the entity stored under the next id,
    unless the priority is longer than 50 characters; then it returns
    [False] and nothing is stored. *)
Theorem add_todo_to_backend_outcome (s : store) (title : string)
    (description priority : option string) (due_date : option date) :
  add_todo_to_backend s title description priority due_date =
    if priority_ok (non_empty priority)
    then (<[next_rowid s :=
              Row.mk title (non_empty description) false (non_empty priority) due_date]> s,
          true)
    else (s, false).
Proof. apply add_todo_to_backend_eq. Qed.

(** X15.  The creation form, submitted with a non-blank title and a
    priority of its select box, always creates the entity: the title as
    typed, the description null when the text area was left empty, the
    priority null for the option "None", [completed] false. *)
Theorem form_creates_entity (s : store) (new_title new_description new_priority : string)
    (new_due_date : option date) :
  new_title ≠ "" → new_priority ∈ priority_options →
  let submitted_priority :=
    if bool_decide (new_priority = "None") then None else Some new_priority in
  let row := Row.mk new_title (non_empty (Some new_description)) false
               submitted_priority new_due_date in
  add_todo_form new_title new_description new_priority new_due_date =
    Some (add_todo_data new_title (Some new_description) submitted_priority new_due_date)
  ∧ add_todo_to_backend s new_title (Some new_description) submitted_priority
      new_due_date = (<[next_rowid s := row]> s, true).
Proof.
  intros Ht Hp sp row. split.
  - unfold add_todo_form, truthy. by rewrite bool_decide_eq_false_2.
  - rewrite add_todo_to_backend_eq. subst sp row.
    unfold priority_options in Hp.
    repeat (apply elem_of_cons in Hp as [->|Hp]); [reflexivity..|].
    by apply elem_of_nil in Hp.
Qed.

Lemma form_creates_entity_witness :
  add_todo_form "Buy milk" "" "High" None =
    Some (add_todo_data "Buy milk" (Some "") (Some "High") None)
  ∧ add_todo_to_backend ∅ "Buy milk" (Some "") (Some "High") None =
      ({[1 := Row.mk "Buy milk" None false (Some "High") None]}, true).
Proof.
  assert (Hp : "High" ∈ priority_options).
  { unfold priority_options. rewrite !elem_of_cons. auto. }
  assert (Ht : "Buy milk" ≠ "") by discriminate.
  exact (form_creates_entity ∅ "Buy milk" "" "High" None Ht Hp).
Defined.

(** ** The two groups *)

Lemma elem_of_incomplete_todos (todos : list TodoItem.t) (todo : TodoItem.t) :
  todo ∈ incomplete_todos todos ↔ todo ∈ todos ∧ is_completed todo = false.
Proof.
  unfold incomplete_todos. rewrite !list_elem_of_In, filter_In.
  by rewrite negb_true_iff.
Qed.

Lemma elem_of_completed_todos (todos : list TodoItem.t) (todo : TodoItem.t) :
  todo ∈ completed_todos todos ↔ todo ∈ todos ∧ is_completed todo = true.
Proof. unfold completed_todos. by rewrite !list_elem_of_In, filter_In. Qed.

(** X16.  The pending and the completed group split the fetched list:
    together they hold every entity of the list as often as the list does,
    and no entity is in both. *)
Theorem groups_split_list (todos : list TodoItem.t) :
  incomplete_todos todos ++ completed_todos todos ≡ₚ todos
  ∧ ∀ todo, ¬ (todo ∈ incomplete_todos todos ∧ todo ∈ completed_todos todos).
Proof.
  split.
  - unfold incomplete_todos, completed_todos.
    induction todos as [|todo todos IH]; [done|]. simpl.
    destruct (is_completed todo); simpl.
    + rewrite <- Permutation_middle. by constructor.
    + by constructor.
  - intros todo [[_ H1]%elem_of_incomplete_todos [_ H2]%elem_of_completed_todos].
    congruence.
Qed.

Lemma mark_completed_store (s : store) (i : Z) (r : Row.t) :
  s !! i = Some r →
  update_todo s i completed_true =
    (<[i := Row.mk (Row.title r) (Row.description r) true
              (Row.priority r) (Row.due_date r)]> s,
     Response 200
       (Entity (TodoItem.mk (Some i) (Some (Row.title r)) (Row.description r)
                  (Some true) (Row.priority r) (Row.due_date r)))).
Proof.
  intros Hr. rewrite (update_todo_present s i r) by done.
  by rewrite model_dump_completed_true.
Qed.

(** X17.  Marking a stored entity completed moves it to the completed
    group with no other field changed, and leaves every other entity in
    the list as it was. *)
Theorem mark_completed_moves (s : store) (i : Z) (r : Row.t) :
  s !! i = Some r →
  let s' := mark_todo_completed s i in
  let moved := TodoItem.mk (Some i) (Some (Row.title r)) (Row.description r)
                 (Some true) (Row.priority r) (Row.due_date r) in
  moved ∈ completed_todos (get_todos s')
  ∧ (∀ todo, todo ∈ incomplete_todos (get_todos s') → TodoItem.id todo ≠ Some i)
  ∧ (∀ todo, TodoItem.id todo ≠ Some i →
       (todo ∈ get_todos s' ↔ todo ∈ get_todos s)).
Proof.
  intros Hr s' moved. subst s'. unfold mark_todo_completed.
  rewrite (mark_completed_store s i r Hr). unfold get_todos. simpl. repeat split.
  - apply elem_of_completed_todos. split; [|done].
    apply elem_of_get_all_todos. eexists i, _. split; [apply lookup_insert_eq|done].
  - intros todo [Hin Hc]%elem_of_incomplete_todos Hid.
    apply elem_of_get_all_todos in Hin as (j & x & Hj & ->).
    simpl in Hid. injection Hid as ->.
    rewrite lookup_insert_eq in Hj. injection Hj as <-. discriminate Hc.
  - intros (j & x & Hj & ->)%elem_of_get_all_todos.
    apply elem_of_get_all_todos. exists j, x. split; [|done].
    rewrite lookup_insert_ne in Hj; [done|]. intros ->. by apply H.
  - intros (j & x & Hj & ->)%elem_of_get_all_todos.
    apply elem_of_get_all_todos. exists j, x. split; [|done].
    rewrite lookup_insert_ne; [done|]. intros ->. by apply H.
Qed.

Lemma mark_completed_moves_witness :
  let r := Row.mk "Buy milk" None false (Some "High") None in
  let s' := mark_todo_completed {[1 := r]} 1 in
  let moved := TodoItem.mk (Some 1) (Some "Buy milk") None (Some true) (Some "High") None in
  moved ∈ completed_todos (get_todos s')
  ∧ (∀ todo, todo ∈ incomplete_todos (get_todos s') → TodoItem.id todo ≠ Some 1)
  ∧ (∀ todo, TodoItem.id todo ≠ Some 1 →
       (todo ∈ get_todos s' ↔ todo ∈ get_todos {[1 := r]})).
Proof.
  intros r. exact (mark_completed_moves {[1 := r]} 1 r (lookup_singleton_eq 1 r)).
Defined.

(** ** The translations of a session *)

Lemma cache_translation_insert (tr : translations) (i : Z) (lang text : string) :
  cache_translation tr i lang text =
    <[i := <[lang := text]> (default ∅ (tr !! i))]> tr.
Proof.
  unfold cache_translation. destruct (tr !! i) as [m|] eqn:Hi.
  - by rewrite Hi.
  - rewrite lookup_insert_eq. simpl. by rewrite insert_insert_eq.
Qed.

(** X18.  A translation stored for an entity and a language is the one
    shown for them afterwards, and what is shown for every other entity or
    language is as before. *)
Theorem cache_translation_shown (tr : translations) (i j : Z)
    (lang l text : string) :
  shown_translation (cache_translation tr i lang text) j l =
    if decide (i = j ∧ lang = l) then Some text else shown_translation tr j l.
Proof.
  rewrite cache_translation_insert. unfold shown_translation.
  destruct (decide (i = j)) as [->|Hij].
  - rewrite lookup_insert_eq. destruct (decide (lang = l)) as [->|Hl].
    + rewrite lookup_insert_eq. by rewrite decide_True.
    + rewrite lookup_insert_ne by done. rewrite decide_False by tauto.
      destruct (tr !! j); [done | apply lookup_empty].
  - rewrite lookup_insert_ne by done. by rewrite decide_False by tauto.
Qed.

Lemma find_has_id (i : Z) (todos : list TodoItem.t) (todo : TodoItem.t) :
  List.find (has_id i) todos = Some todo →
  todo ∈ todos ∧ TodoItem.id todo = Some i.
Proof.
  intros [Hin Hid]%find_some. split; [by apply list_elem_of_In|].
  unfold has_id in Hid. by apply bool_decide_eq_true in Hid.
Qed.

Lemma post_todos_keeps_ids (s : store) (b : CreateBody.t) (i : Z) :
  is_Some (s !! i) → is_Some (fst (post_todos s b) !! i).
Proof.
  intros Hi. unfold post_todos. destruct (validate_create_body b) as [?|c]; [done|].
  apply (handle_lookup s (POST c)). left. split; [done | discriminate].
Qed.

Section PresentationProperties.

Variable isoformat : date → string.

(** X19.  What the translate button stores.  Without a configured
    service nothing is stored.  With one, the text composed from the
    entity is sent for the selected language, and the output of the
    service is stored under the entity and the language when it is not
    empty; a failure of the service or an empty output stores nothing. *)
Theorem on_translate_outcome (key : string) (service : string → exn + string)
    (tr : translations) (i : Z) (todo : TodoItem.t) (lang text : string) :
  key ≠ "" → text_to_translate isoformat todo = Some text →
  on_translate isoformat (configure_gemini None service) tr i todo lang = tr
  ∧ on_translate isoformat (configure_gemini (Some key) service) tr i todo lang =
      match service ("Translate the following text into " +:+ lang +:+ ": " +:+ text) with
      | inr output =>
          if bool_decide (output = "") then tr else cache_translation tr i lang output
      | inl _ => tr
      end.
Proof.
  intros Hk Ht. unfold on_translate. rewrite Ht. split; [reflexivity|].
  unfold translate_text_on_backend.
  rewrite (translate_text_configured key service _ Hk). simpl.
  destruct (service _) as [e|output]; simpl; [done|].
  by destruct (bool_decide (output = "")).
Qed.

Lemma on_translate_ids (gemini_model : option GenerativeModel) (tr : translations)
    (i j : Z) (todo : TodoItem.t) (lang : string) :
  is_Some (on_translate isoformat gemini_model tr i todo lang !! j) →
  j = i ∨ is_Some (tr !! j).
Proof.
  unfold on_translate. destruct (text_to_translate _ _); [|auto].
  destruct (truthy _); [|auto].
  rewrite cache_translation_insert, lookup_insert_is_Some. intros [->|[_ H]]; auto.
Qed.

Lemma ui_step_keeps_within (gemini_model : option GenerativeModel)
    (st : store * translations) (ev : ui_event) :
  translations_within_store st →
  translations_within_store (ui_step isoformat gemini_model st ev).
Proof.
  destruct st as [s tr]. unfold translations_within_store. simpl. intros Hst.
  destruct ev as [t d p dd|i|i lang|i]; simpl.
  - destruct (add_todo_form t d p dd) as [b|]; simpl; [|done].
    intros j Hj. by apply post_todos_keeps_ids, Hst.
  - destruct (find _ _); simpl; [|done].
    intros j Hj. unfold mark_todo_completed.
    apply (handle_lookup s (PUT i completed_true)). left.
    split; [by apply Hst | discriminate].
  - destruct (find _ _) as [todo|] eqn:Hf; simpl; [|done].
    apply find_has_id in Hf as [[Hin _]%elem_of_incomplete_todos Hid].
    apply elem_of_get_all_todos in Hin as (k & r & Hk & ->).
    simpl in Hid. injection Hid as ->.
    intros j [->|Hj]%on_translate_ids; [eauto | by apply Hst].
  - destruct (find _ _); simpl; [|done].
    intros j Hj. apply lookup_delete_is_Some in Hj as [Hne Hj].
    unfold delete_todo_item.
    apply (handle_lookup s (DELETE i)). left.
    split; [by apply Hst | congruence].
Qed.

Lemma ui_run_keeps_within (gemini_model : option GenerativeModel)
    (evs : list ui_event) (st : store * translations) :
  translations_within_store st →
  translations_within_store (ui_run isoformat gemini_model st evs).
Proof.
  unfold ui_run. revert st.
  induction evs as [|ev evs IH]; intros st Hst; simpl; [done|].
  by apply IH, ui_step_keeps_within.
Qed.

(** X20.  In a session that starts without translations, whatever the
    user does, no translation is kept for an id the store does not hold:
    nothing is shown for such an id, so an entity created later starts
    without translation even when it is given the id of a deleted one. *)
Theorem translations_only_for_stored (gemini_model : option GenerativeModel)
    (s0 : store) (evs : list ui_event) (i : Z) (lang : string) :
  let st := ui_run isoformat gemini_model (s0, ∅) evs in
  st.1 !! i = None → shown_translation st.2 i lang = None.
Proof.
  intros st Hi.
  assert (Hinv : translations_within_store st).
  { apply ui_run_keeps_within. intros j. simpl. rewrite lookup_empty. by intros [? ?]. }
  unfold shown_translation. destruct (st.2 !! i) as [m|] eqn:Hm; [|done].
  destruct (Hinv i) as [r Hr]; [eauto|]. congruence.
Qed.

End PresentationProperties.

Lemma on_translate_outcome_witness :
  let todo := TodoItem.mk (Some 1) (Some "Buy milk") None (Some false) (Some "High") None in
  let service : string → exn + string := λ prompt, inr "Acheter du lait" in
  on_translate (λ _, "2025-01-31") (configure_gemini None service) ∅ 1 todo "French" = ∅
  ∧ on_translate (λ _, "2025-01-31") (configure_gemini (Some "secret") service)
      ∅ 1 todo "French" =
      cache_translation ∅ 1 "French" "Acheter du lait".
Proof.
  intros todo service.
  assert (Hk : "secret" ≠ "") by discriminate.
  exact (on_translate_outcome (λ _, "2025-01-31") "secret" service ∅ 1 todo "French"
           "Buy milk (Priority: High)" Hk eq_refl).
Defined.

Lemma translations_only_for_stored_witness :
  let service : string → exn + string := λ prompt, inr "Acheter du lait" in
  let st := ui_run (λ _, "2025-01-31") (configure_gemini (Some "secret") service) (∅, ∅)
              [ SubmitAdd "Buy milk" "" "None" None;
                PressTranslate 1 "French";
                PressDelete 1 ] in
  shown_translation st.2 1 "French" = None.
Proof.
  intros service st.
  apply (translations_only_for_stored (λ _, "2025-01-31")
           (configure_gemini (Some "secret") service) ∅ _ 1 "French").
  vm_compute. reflexivity.
Defined.

(** ** The buttons *)

Lemma find_has_id_stored (s : store) (i : Z) (r : Row.t) (todos : list TodoItem.t) :
  load i r ∈ todos →
  (∀ todo, todo ∈ todos → TodoItem.id todo = Some i → todo = load i r) →
  List.find (has_id i) todos = Some (load i r).
Proof.
  intros Hin Huniq. destruct (List.find (has_id i) todos) as [todo|] eqn:Hf.
  - apply find_has_id in Hf as [Hin' Hid]. by rewrite (Huniq todo).
  - apply list_elem_of_In in Hin.
    pose proof (find_none _ _ Hf _ Hin) as Hno.
    unfold has_id in Hno. simpl in Hno.
    by rewrite bool_decide_eq_true_2 in Hno.
Qed.

Lemma find_in_get_todos (s : store) (i : Z) (r : Row.t) :
  s !! i = Some r → List.find (has_id i) (get_todos s) = Some (load i r).
Proof.
  intros Hr. apply (find_has_id_stored s).
  - apply elem_of_get_all_todos. eauto.
  - intros todo (j & x & Hj & ->)%elem_of_get_all_todos [= ->]. congruence.
Qed.

Lemma find_in_incomplete (s : store) (i : Z) (r : Row.t) :
  s !! i = Some r →
  List.find (has_id i) (incomplete_todos (get_todos s)) =
    if Row.completed r then None else Some (load i r).
Proof.
  intros Hr. destruct (Row.completed r) eqn:Hc.
  - destruct (List.find _ _) as [todo|] eqn:Hf; [|done].
    apply find_has_id in Hf as [[Hin Hnc]%elem_of_incomplete_todos Hid].
    apply elem_of_get_all_todos in Hin as (j & x & Hj & ->).
    simpl in Hid. injection Hid as ->.
    assert (x = r) as -> by congruence.
    unfold is_completed in Hnc. simpl in Hnc. congruence.
  - apply (find_has_id_stored s).
    + apply elem_of_incomplete_todos. split.
      * apply elem_of_get_all_todos. eauto.
      * unfold is_completed. simpl. by rewrite Hc.
    + intros todo [(j & x & Hj & ->)%elem_of_get_all_todos _]%elem_of_incomplete_todos
        [= ->]. congruence.
Qed.

Section Buttons.

Variable isoformat : date → string.

(** X21.  Every stored entity can be acted on from the page.  Its delete
    button removes the entity and its translations, in either group.  A
    pending entity has the button that marks it completed, changing that
    field alone; a completed entity has no such button and no translate
    button, so those events change nothing. *)
Theorem buttons_reach_store (gemini_model : option GenerativeModel)
    (s : store) (tr : translations) (i : Z) (r : Row.t) (lang : string) :
  s !! i = Some r →
  ui_step isoformat gemini_model (s, tr) (PressDelete i) = (delete i s, delete i tr)
  ∧ (Row.completed r = false →
       ui_step isoformat gemini_model (s, tr) (PressCompleted i) =
         (<[i := Row.mk (Row.title r) (Row.description r) true
                   (Row.priority r) (Row.due_date r)]> s, tr))
  ∧ (Row.completed r = true →
       ui_step isoformat gemini_model (s, tr) (PressCompleted i) = (s, tr)
       ∧ ui_step isoformat gemini_model (s, tr) (PressTranslate i lang) = (s, tr)).
Proof.
  intros Hr. simpl. rewrite (find_in_get_todos s i r Hr).
  rewrite (find_in_incomplete s i r Hr). split; [|split].
  - unfold delete_todo_item, delete_todo. by rewrite (session_get_Some _ _ _ Hr).
  - intros ->. unfold mark_todo_completed. by rewrite (mark_completed_store s i r Hr).
  - by intros ->.
Qed.

End Buttons.

Lemma buttons_reach_store_witness :
  let r := Row.mk "Buy milk" None false None None in
  ui_step (λ _, "2025-01-31") None ({[1 := r]}, {[1 := {["French" := "Acheter du lait"]}]})
    (PressDelete 1) = (delete 1 {[1 := r]}, delete 1 {[1 := {["French" := "Acheter du lait"]}]}).
Proof.
  intros r.
  exact (proj1 (buttons_reach_store (λ _, "2025-01-31") None {[1 := r]}
                  {[1 := {["French" := "Acheter du lait"]}]} 1 r "French"
                  (lookup_singleton_eq 1 r))).
Defined.
